(** * A shallow embedding of [app.py]: the narrated-video pipeline

    The Flask application of the repository turns a text and a list of
    YouTube links into one video.  This file embeds its functions
    ([clean_temp_files], [download_youtube_video], [create_subtitle_filter],
    [process_video], [generate_video]) and states the properties of the
    specification over them.

    - Python strings are [string]s.  A [string] is a sequence of bytes; a
      Python string is a sequence of code points.  The only function that
      looks inside a string, [clean_text], keeps the characters of an ASCII
      class, and every byte of the UTF-8 encoding of a code point outside
      ASCII is itself outside ASCII, so the byte-wise filter and the
      code-point-wise filter agree.
    - The file system is a finite map from paths to nodes.
    - The black boxes (gTTS, whisper, pytube, ffmpeg, flask's [send_file]) are
      fields of an environment record: what they return, whether they raise,
      and what they leave on disk when they do.
    - Effects are threaded by a state-and-exception monad; a Python exception
      is the text [str(e)] shows.
    - [tempfile.mkdtemp], [open] with [write], and [print] are taken to
      succeed; [os.remove] and [shutil.rmtree] may be refused, and a refusal
      is a property of the path, the same at every attempt.
    - A path names a node of the disk by its exact text.  This is what the
      operating system does for the paths the program makes itself, and for
      any absolute path in normal form (no empty, [.] or [..] component, no
      trailing slash) on a disk without links.
    - The values that come out of the body of a request, and that
      [process_video] is handed, are the Python values of JSON. *)

From Stdlib Require Import Ascii Floats Sorted.
From stdpp Require Import gmap strings list fin_maps.

(** ** Caption text *)

Module Caption.

(** The character class [a-zA-Z0-9,.?! ] of the regular expression. *)
Definition in_range (lo hi c : ascii) : bool :=
  (nat_of_ascii lo <=? nat_of_ascii c) && (nat_of_ascii c <=? nat_of_ascii hi).

Definition allowed (c : ascii) : bool :=
  in_range "a" "z" c || in_range "A" "Z" c || in_range "0" "9" c
  || Ascii.eqb c "," || Ascii.eqb c "." || Ascii.eqb c "?"
  || Ascii.eqb c "!" || Ascii.eqb c " ".

(** [re.sub(r"[^a-zA-Z0-9,.?! ]", "", text)]: every character outside the
    class is replaced by nothing. *)
Fixpoint clean_text (text : string) : string :=
  match text with
  | EmptyString => EmptyString
  | String c rest =>
      if allowed c then String c (clean_text rest) else clean_text rest
  end.

(** Every character of [s] satisfies [p]. *)
Fixpoint all_chars (p : ascii -> bool) (s : string) : bool :=
  match s with
  | EmptyString => true
  | String c rest => p c && all_chars p rest
  end.

(** One entry of whisper's ["words"] list. *)
Record word_info := WordInfo { word : string; start : float; end_ : float }.

(** One entry of whisper's ["segments"] list; [words] is [None] when the
    dictionary has no ["words"] key ([segment.get("words", [])]). *)
Record segment := Segment { words : option (list word_info) }.

Definition segment_words (s : segment) : list word_info :=
  default [] (words s).

Section Drawtext.

(** How an f-string renders a timestamp; Python's float formatting is not
    modelled. *)
Variable str_float : float -> string.

(** The f-string of the loop body. *)
Definition filter_text (word_info : word_info) : string :=
  let word := clean_text (word word_info) in
  let start := start word_info in
  let end_ := end_ word_info in
  "drawtext=font='Arial':text='" +:+ word +:+ "':"
  +:+ "fontsize=60:fontcolor=white:bordercolor=black:borderw=2:"
  +:+ "x=(w-text_w)/2:y=(h-text_h)/2:"
  +:+ "enable='between(t," +:+ str_float start +:+ "," +:+ str_float end_
  +:+ ")'".

(** The list [filters] when the two nested loops are over. *)
Fixpoint filters (segments : list segment) : list string :=
  match segments with
  | [] => []
  | segment :: rest => map filter_text (segment_words segment) ++ filters rest
  end.

Definition create_subtitle_filter (segments : list segment) : string :=
  String.concat "," (filters segments).

End Drawtext.

(** All the words of a transcript, segment by segment. *)
Definition transcript_words (segments : list segment) : list word_info :=
  concat (map segment_words segments).

End Caption.

(** ** pytube's stream queries *)

Module Pytube.

(** The attributes of a pytube [Stream] that the program reads.  The label
    of a resolution is kept as its number: ["720p"] is [Some 720], and a
    stream without video has [None]. *)
Record Stream := MkStream {
  itag : nat;
  is_progressive : bool;
  subtype : string;
  resolution : option nat;
  default_filename : string
}.

Definition res_is (res : nat) (s : Stream) : bool :=
  match resolution s with
  | Some r => r =? res
  | None => false
  end.

(** [streams.filter(progressive=True, file_extension='mp4', res=...)];
    [res] is [None] when the keyword is not given. *)
Definition filter_progressive_mp4 (res : option nat) (streams : list Stream)
  : list Stream :=
  List.filter
    (fun s => is_progressive s && String.eqb (subtype s) "mp4"
              && match res with Some r => res_is r s | None => true end)
    streams.

Definition res_key (s : Stream) : nat := default 0 (resolution s).

(** Python's [sorted] is stable: a stream goes before the first one whose
    key is not smaller. *)
Fixpoint insert_sorted (s : Stream) (sorted : list Stream) : list Stream :=
  match sorted with
  | [] => [s]
  | t :: rest =>
      if res_key s <=? res_key t then s :: sorted
      else t :: insert_sorted s rest
  end.

Fixpoint sorted_by_resolution (streams : list Stream) : list Stream :=
  match streams with
  | [] => []
  | s :: rest => insert_sorted s (sorted_by_resolution rest)
  end.

(** [order_by('resolution')]: the streams that have a resolution, in
    ascending order of the number in its label. *)
Definition order_by_resolution (streams : list Stream) : list Stream :=
  sorted_by_resolution
    (List.filter (fun s => bool_decide (is_Some (resolution s))) streams).

Definition desc (streams : list Stream) : list Stream := reverse streams.

Definition first (streams : list Stream) : option Stream := head streams.

(** The expression [filter(..., res='720p').first() or
    filter(...).order_by('resolution').desc().first()] of
    [download_youtube_video]. *)
Definition select_stream (streams : list Stream) : option Stream :=
  match first (filter_progressive_mp4 (Some 720) streams) with
  | Some stream => Some stream
  | None => first (desc (order_by_resolution (filter_progressive_mp4 None streams)))
  end.

End Pytube.

(** ** State, exceptions and the file system *)

Module Effects.

(** What a path holds: a directory, or a file and its bytes. *)
Inductive node := Dir | File (data : string).

(** The part of the machine the program acts on.  [fs] maps the text of a
    path to what is there: the program names every file by the one text it
    built with [mkdtemp] and [os.path.join], and the operating system's
    reading of other spellings of a path (a trailing slash, [.], [..], a
    link) is not modelled.  [temp_paths] is the local list of
    [process_video], kept in the state because its [except] clause reads
    what the interrupted body had appended. *)
Record State := MkState {
  fs : gmap string node;
  tmp_count : nat;
  calls : list (list string);
  stdout : list string;
  temp_paths : list string
}.

(** A call returns a value or raises; the text is [str(e)]. *)
Inductive result (A : Type) := Ok (a : A) | Raise (msg : string).
Arguments Ok {A} a.
Arguments Raise {A} msg.

Definition M (A : Type) : Type := State -> result A * State.

Definition ret {A} (a : A) : M A := fun s => (Ok a, s).

Definition raise {A} (msg : string) : M A := fun s => (Raise msg, s).

Definition bind {A B} (m : M A) (k : A -> M B) : M B :=
  fun s =>
    match m s with
    | (Ok a, s') => k a s'
    | (Raise msg, s') => (Raise msg, s')
    end.

(** [try: body except Exception as e: handler(e)]. *)
Definition try_except {A} (body : M A) (handler : string -> M A) : M A :=
  fun s =>
    match body s with
    | (Ok a, s') => (Ok a, s')
    | (Raise msg, s') => handler msg s'
    end.

(** [try: body finally: final]: [final] runs on both exits, and an
    exception of [final] replaces the outcome of [body]. *)
Definition try_finally {A} (body : M A) (final : M unit) : M A :=
  fun s =>
    let '(r, s') := body s in
    match final s' with
    | (Ok _, s'') => (r, s'')
    | (Raise msg, s'') => (Raise msg, s'')
    end.

Definition gets {A} (f : State -> A) : M A := fun s => (Ok (f s), s).

Definition modify (f : State -> State) : M unit := fun s => (Ok tt, f s).

Declare Scope py_scope.
Delimit Scope py_scope with py.
Notation "x <- c1 ;; c2" := (bind c1 (fun x => c2))
  (at level 100, c1 at next level, right associativity) : py_scope.
Notation "c1 ;; c2" := (bind c1 (fun _ => c2))
  (at level 100, right associativity) : py_scope.
Open Scope py_scope.

Definition set_fs (f : gmap string node -> gmap string node) (s : State) : State :=
  MkState (f (fs s)) (tmp_count s) (calls s) (stdout s) (temp_paths s).

(** The state after a line was printed, after paths were appended to
    [temp_paths], and after a command line was recorded. *)
Definition logged (line : string) (s : State) : State :=
  MkState (fs s) (tmp_count s) (calls s) (stdout s ++ [line]) (temp_paths s).

Definition registered (ps : list string) (s : State) : State :=
  MkState (fs s) (tmp_count s) (calls s) (stdout s) (temp_paths s ++ ps).

Definition called (argv : list string) (s : State) : State :=
  MkState (fs s) (tmp_count s) (calls s ++ [argv]) (stdout s) (temp_paths s).

Definition print (line : string) : M unit := modify (logged line).

(** [temp_paths = []] *)
Definition new_temp_paths : M unit :=
  modify (fun s => MkState (fs s) (tmp_count s) (calls s) (stdout s) []).

(** [temp_paths.append(p)] and [temp_paths.extend(ps)]. *)
Definition extend_temp_paths (ps : list string) : M unit :=
  modify (registered ps).

Definition write_file (path data : string) : M unit :=
  modify (set_fs (insert path (File data))).

(** [os.path.join(a, b)] for a relative [b], on POSIX. *)
Definition path_join (a b : string) : string := a +:+ "/" +:+ b.

(** [path] lies below the directory [dir]. *)
Definition inside (dir path : string) : bool := String.prefix (dir +:+ "/") path.

(** [os.path.isdir] and [os.path.exists], for a path spelled as its key
    in [fs]. *)
Definition os_path_isdir (path : string) : M bool :=
  gets (fun s => match fs s !! path with Some Dir => true | _ => false end).

Definition os_path_exists (path : string) : M bool :=
  gets (fun s => bool_decide (is_Some (fs s !! path))).

(** Which removals the operating system refuses.  [os.remove(p)] raises
    [msg] when [remove_error p = Some msg], and leaves [p] in place.
    [shutil.rmtree(p)] raises [msg] when [rmtree_error p = Some (msg, gone)];
    it had then already deleted the paths below [p] that [gone] selects,
    and [p] itself, removed last, is still there. *)
Record OsErrors := MkOsErrors {
  remove_error : string -> option string;
  rmtree_error : string -> option (string * (string -> bool))
}.

Definition os_remove (os : OsErrors) (path : string) : M unit :=
  match remove_error os path with
  | None => modify (set_fs (delete path))
  | Some msg => raise msg
  end.

Definition shutil_rmtree (os : OsErrors) (path : string) : M unit :=
  match rmtree_error os path with
  | None =>
      modify (set_fs (filter (fun kv : string * node =>
        negb (String.eqb kv.1 path || inside path kv.1) = true)))
  | Some (msg, gone) =>
      modify (set_fs (filter (fun kv : string * node =>
        negb (inside path kv.1 && gone kv.1) = true))) ;;
      raise msg
  end.

(** [clean_temp_files]: the loop over [temp_paths], with its [try] around
    each removal. *)
Fixpoint clean_temp_files (os : OsErrors) (temp_paths : list string) : M unit :=
  match temp_paths with
  | [] => ret tt
  | path :: rest =>
      try_except
        (isdir <- os_path_isdir path ;;
         if isdir : bool then shutil_rmtree os path
         else
           exists_ <- os_path_exists path ;;
           if exists_ : bool then os_remove os path else ret tt)
        (fun e => print ("Error cleaning up " +:+ path +:+ ": " +:+ e)) ;;
      clean_temp_files os rest
  end.

End Effects.

(** ** Python values *)

Module Python.
Import Effects.

(** What [json.loads] makes of a body: [None], a [bool], an [int], a
    [float], a [str], a [list] or a [dict]; the members of a [dict] are
    listed with their keys, each key once. *)
#[local] Unset Elimination Schemes.
Inductive json :=
  | JNull
  | JBool (b : bool)
  | JInt (n : Z)
  | JFloat (x : float)
  | JString (s : string)
  | JArray (items : list json)
  | JObject (members : list (string * json)).
#[local] Set Elimination Schemes.

(** [type(v).__name__] *)
Definition type_name (v : json) : string :=
  match v with
  | JNull => "NoneType"
  | JBool _ => "bool"
  | JInt _ => "int"
  | JFloat _ => "float"
  | JString _ => "str"
  | JArray _ => "list"
  | JObject _ => "dict"
  end.

(** [bool(v)], the test of [not v]. *)
Definition truthy (v : json) : bool :=
  match v with
  | JNull => false
  | JBool b => b
  | JInt n => negb (n =? 0)%Z
  | JFloat x => negb (PrimFloat.eqb x 0)
  | JString s => negb (String.eqb s "")
  | JArray items => match items with [] => false | _ :: _ => true end
  | JObject members => match members with [] => false | _ :: _ => true end
  end.

(** A byte of the form [10xxxxxx], which continues a character in
    UTF-8. *)
Definition is_continuation (c : ascii) : bool :=
  (128 <=? nat_of_ascii c) && (nat_of_ascii c <? 192).

Definition starts_with_continuation (s : string) : bool :=
  match s with
  | String c _ => is_continuation c
  | EmptyString => false
  end.

(** The characters of a [str], each with the bytes that encode it. *)
Fixpoint code_points (s : string) : list string :=
  match s with
  | EmptyString => []
  | String c rest =>
      match code_points rest with
      | next :: others =>
          if starts_with_continuation next then String c next :: others
          else String c "" :: next :: others
      | [] => [String c ""]
      end
  end.

(** What a [for] loop over [v] goes through, for the values that have
    one: the characters of a [str], the items of a [list], the keys of a
    [dict]. *)
Definition py_items (v : json) : option (list json) :=
  match v with
  | JString s => Some (map JString (code_points s))
  | JArray items => Some items
  | JObject members => Some (map (fun member => JString member.1) members)
  | _ => None
  end.

(** [len(v)]: a TypeError for a value without a length. *)
Definition py_len (v : json) : result nat :=
  match py_items v with
  | Some items => Ok (length items)
  | None => Raise ("object of type '" +:+ type_name v +:+ "' has no len()")
  end.

(** The list a [for] loop over [v] goes through; the values that have a
    length are the values that can be looped over. *)
Definition py_iter (v : json) : list json := default [] (py_items v).

Fixpoint assoc (key : string) (members : list (string * json)) : option json :=
  match members with
  | [] => None
  | (k, v) :: rest => if String.eqb k key then Some v else assoc key rest
  end.

(** [data.get(key, fallback)]: an AttributeError when [data] is not a
    [dict]. *)
Definition dict_get (key : string) (fallback : json) (data : json)
  : result json :=
  match data with
  | JObject members => Ok (default fallback (assoc key members))
  | _ => Raise ("'" +:+ type_name data +:+ "' object has no attribute 'get'")
  end.

End Python.

(** ** The application *)

Module App.
Import Caption Pytube Effects Python.

(** What a black box that writes one file did: it wrote [data] and
    returned, or it raised [msg], leaving a partial file ([Some bytes]) or
    nothing ([None]) at the path it was writing. *)
Inductive outcome :=
  | Done (data : string)
  | Failed (left_behind : option string) (msg : string).

(** The black boxes.
    - [mkdtemp_name n]: the directory [tempfile.mkdtemp()] makes on its
      [n]-th call;
    - [gtts_save text]: [gTTS(text=text, lang="en").save(path)], for any
      value [text];
    - [whisper_segments audio]: the ["segments"] of
      [whisper.load_model("base").transcribe(path, word_timestamps=True)],
      for what is found at [path];
    - [youtube_streams url]: [YouTube(url).streams], for any value [url];
    - [stream_download stream]: [stream.download(output_path=...)];
    - [ffmpeg fs argv]: [subprocess.run(argv, check=True)], writing the
      file named last in [argv];
    - [send_file fs path]: flask's [send_file], which opens the file at
      [path] and returns a response around the open file; the text stands
      for that open file.  The body is sent from it after [generate_video]
      has returned, which the model does not follow;
    - [str_float]: the text of a timestamp in an f-string. *)
Record Env := MkEnv {
  mkdtemp_name : nat -> string;
  gtts_save : json -> outcome;
  whisper_segments : option node -> result (list segment);
  youtube_streams : json -> result (list Stream);
  stream_download : Stream -> outcome;
  ffmpeg : gmap string node -> list string -> outcome;
  send_file : gmap string node -> string -> result string;
  str_float : float -> string
}.

(** [tempfile.mkdtemp()] *)
Definition mkdtemp (env : Env) : M string :=
  fun s =>
    let temp_dir := mkdtemp_name env (tmp_count s) in
    (Ok temp_dir,
     MkState (<[temp_dir := Dir]> (fs s)) (S (tmp_count s))
             (calls s) (stdout s) (temp_paths s)).

(** A black box writing the file [path]. *)
Definition writes (path : string) (o : outcome) : M unit :=
  match o with
  | Done data => write_file path data
  | Failed (Some partial) msg => write_file path partial ;; raise msg
  | Failed None msg => raise msg
  end.

(** [subprocess.run(argv, check=True)] for ffmpeg, whose output file is the
    last argument. *)
Definition subprocess_run (env : Env) (argv : list string) : M unit :=
  modify (called argv) ;;
  files <- gets fs ;;
  writes (default "" (last argv)) (ffmpeg env files argv).

Definition download_youtube_video (env : Env) (url : json)
  : M (string * string) :=
  try_except
    (streams <- (fun s => (youtube_streams env url, s)) ;;
     match select_stream streams with
     | None => raise "No suitable video stream found"
     | Some stream =>
         temp_dir <- mkdtemp env ;;
         let path := path_join temp_dir (default_filename stream) in
         writes path (stream_download env stream) ;;
         ret (path, temp_dir)
     end)
    (fun e => raise ("YouTube download failed: " +:+ e)).

(** The loop [for url in youtube_urls], returning [video_segments]. *)
Fixpoint download_videos (env : Env) (youtube_urls : list json)
  : M (list string) :=
  match youtube_urls with
  | [] => ret []
  | url :: rest =>
      downloaded <- download_youtube_video env url ;;
      let '(video_path, temp_dir) := downloaded in
      extend_temp_paths [video_path; temp_dir] ;;
      video_segments <- download_videos env rest ;;
      ret (video_path :: video_segments)
  end.

(** What the loop [f.write(f"file '{video}'\n")] leaves in [concat.txt];
    the character of code 10 is the newline. *)
Definition concat_lines (video_segments : list string) : string :=
  String.concat ""
    (map (fun video => "file '" +:+ video +:+ "'" +:+ String (ascii_of_nat 10) "")
         video_segments).

Definition concat_argv (concat_list combined_video : string) : list string :=
  ["ffmpeg"; "-f"; "concat"; "-safe"; "0";
   "-i"; concat_list; "-c"; "copy"; combined_video].

Definition mux_argv (input_video voice_path subtitle_filter output_path : string)
  : list string :=
  ["ffmpeg"; "-y";
   "-i"; input_video;
   "-i"; voice_path;
   "-vf"; subtitle_filter;
   "-map"; "0:v";
   "-map"; "1:a";
   "-c:v"; "libx264";
   "-preset"; "fast";
   "-crf"; "23";
   "-c:a"; "aac";
   "-shortest";
   output_path].

(** The [try] block of [process_video]. *)
Definition process_video_body (env : Env) (story_text : json)
    (youtube_urls : list json) : M (string * list string) :=
  work_dir <- mkdtemp env ;;
  extend_temp_paths [work_dir] ;;
  print "🎤 Generating voice narration..." ;;
  let voice_path := path_join work_dir "narration.mp3" in
  writes voice_path (gtts_save env story_text) ;;
  extend_temp_paths [voice_path] ;;
  print "📝 Creating transcript..." ;;
  result <- (fun s => (whisper_segments env (fs s !! voice_path), s)) ;;
  print "📥 Downloading videos..." ;;
  video_segments <- download_videos env youtube_urls ;;
  input_video <-
    (if 1 <? length video_segments then
       print "🔄 Combining videos..." ;;
       let concat_list := path_join work_dir "concat.txt" in
       write_file concat_list (concat_lines video_segments) ;;
       let combined_video := path_join work_dir "combined.mp4" in
       subprocess_run env (concat_argv concat_list combined_video) ;;
       extend_temp_paths [concat_list; combined_video] ;;
       ret combined_video
     else
       match video_segments with
       | video :: _ => ret video
       | [] => raise "list index out of range"
       end) ;;
  print "🎬 Creating final video..." ;;
  let output_path := path_join work_dir "final_output.mp4" in
  let subtitle_filter := create_subtitle_filter (str_float env) result in
  subprocess_run env (mux_argv input_video voice_path subtitle_filter output_path) ;;
  temp_paths <- gets temp_paths ;;
  ret (output_path, temp_paths).

Definition process_video (env : Env) (os : OsErrors) (story_text : json)
    (youtube_urls : list json) : M (string * list string) :=
  new_temp_paths ;;
  try_except
    (process_video_body env story_text youtube_urls)
    (fun e =>
       temp_paths <- gets temp_paths ;;
       clean_temp_files os temp_paths ;;
       raise ("Video processing failed: " +:+ e)).

(** What [request.get_json()] does: it raises (a body that is not JSON),
    or returns the value of the body. *)
Inductive request :=
  | Malformed (msg : string)
  | Json (data : json).

Definition get_json (req : request) : M json :=
  match req with
  | Malformed msg => raise msg
  | Json data => ret data
  end.

(** A computation without effect. *)
Definition eval {A} (r : result A) : M A := fun s => (r, s).

(** What the endpoint returns: a JSON error with its status code, or the
    response made by [send_file] around the open file. *)
Inductive response :=
  | JsonError (error : string) (status : nat)
  | Attachment (file mimetype download_name : string).

Definition generate_video (env : Env) (os : OsErrors) (req : request)
  : M response :=
  try_except
    (data <- get_json req ;;
     story <- eval (dict_get "prompt" JNull data) ;;
     youtube_links <- eval (dict_get "links" (JArray []) data) ;;
     if negb (truthy story) || negb (truthy youtube_links) then
       ret (JsonError "Missing prompt or video links" 400)
     else
       count <- eval (py_len youtube_links) ;;
       if 10 <? count then
         ret (JsonError "Maximum 10 videos allowed" 400)
       else
         processed <- process_video env os story (py_iter youtube_links) ;;
         let '(output_file, temp_paths) := processed in
         try_finally
           (file <- (fun s => (send_file env (fs s) output_file, s)) ;;
            ret (Attachment file "video/mp4" "generated_video.mp4"))
           (clean_temp_files os temp_paths))
    (fun e => ret (JsonError e 500)).

End App.

(** ** Vocabulary of the statements *)

Module Terms.
Import Caption Pytube Effects Python App.

(** The prompt and the links that the endpoint reads in a request, and the
    list of URLs it hands to [process_video]. *)
Definition story_of (req : request) : json :=
  match req with
  | Json (JObject members) => default JNull (assoc "prompt" members)
  | _ => JNull
  end.

Definition links_of (req : request) : json :=
  match req with
  | Json (JObject members) => default (JArray []) (assoc "links" members)
  | _ => JArray []
  end.

Definition urls_of (req : request) : list json := py_iter (links_of req).

(** The answer that the endpoint gives before it calls [process_video],
    if it gives one. *)
Definition early_answer (req : request) : option response :=
  match req with
  | Malformed msg => Some (JsonError msg 500)
  | Json (JObject _) =>
      if negb (truthy (story_of req)) || negb (truthy (links_of req)) then
        Some (JsonError "Missing prompt or video links" 400)
      else
        match py_len (links_of req) with
        | Raise msg => Some (JsonError msg 500)
        | Ok count =>
            if 10 <? count then Some (JsonError "Maximum 10 videos allowed" 400)
            else None
        end
  | Json data =>
      Some (JsonError
              ("'" +:+ type_name data +:+ "' object has no attribute 'get'") 500)
  end.

(** The part of [generate_video] that follows the checks. *)
Definition deliver (env : Env) (os : OsErrors) (story : json)
    (youtube_links : list json) : M response :=
  try_except
    (processed <- process_video env os story youtube_links ;;
     let '(output_file, temp_paths) := processed in
     try_finally
       (file <- (fun s => (send_file env (fs s) output_file, s)) ;;
        ret (Attachment file "video/mp4" "generated_video.mp4"))
       (clean_temp_files os temp_paths))
    (fun e => ret (JsonError e 500)).

(** Streams compared by the number of their resolution. *)
Definition key_le (a b : Stream) : Prop := res_key a <= res_key b.

(** The line printed by the [except] clause of [clean_temp_files]. *)
Definition error_line (path e : string) : string :=
  "Error cleaning up " +:+ path +:+ ": " +:+ e.

(** The operating system refuses to remove [path], with the text [msg]. *)
Definition refused (os : OsErrors) (path msg : string) : Prop :=
  remove_error os path = Some msg
  \/ exists gone, rmtree_error os path = Some (msg, gone).

(** One turn of the loop of [clean_temp_files]. *)
Definition clean_path (os : OsErrors) (path : string) : M unit :=
  try_except
    (isdir <- os_path_isdir path ;;
     if isdir : bool then shutil_rmtree os path
     else
       exists_ <- os_path_exists path ;;
       if exists_ : bool then os_remove os path else ret tt)
    (fun e => print (error_line path e)).

(** Everything but the files and the output is left alone. *)
Definition same_frame (s s' : State) : Prop :=
  tmp_count s' = tmp_count s /\ calls s' = calls s
  /\ temp_paths s' = temp_paths s.

(** Every printed line reports a path of the list that was refused. *)
Definition reports (os : OsErrors) (paths : list string) (lines : list string)
  : Prop :=
  Forall (fun line => exists path msg,
            path ∈ paths /\ refused os path msg /\ line = error_line path msg)
         lines.

(** A pass over [path] has nothing left to do on [files]: the path is
    absent, or it is one that the operating system refuses to remove, and
    then what a refused [rmtree] deletes below it is gone already. *)
Definition settled (os : OsErrors) (path : string) (files : gmap string node)
  : Prop :=
  match files !! path with
  | None => True
  | Some (File _) => is_Some (remove_error os path)
  | Some Dir =>
      exists msg gone, rmtree_error os path = Some (msg, gone)
        /\ forall k, is_Some (files !! k) -> inside path k && gone k = false
  end.

(** The state after [subprocess.run(argv)] has written [data]. *)
Definition after_run (argv : list string) (data : string) (s : State) : State :=
  set_fs (insert (default "" (last argv)) (File data)) (called argv s).

(** The state in which the [try] block of [process_video] starts. *)
Definition start_frame (s : State) : State :=
  MkState (fs s) (tmp_count s) (calls s) (stdout s) [].

(** The state after a download into the fresh directory [temp_dir]. *)
Definition after_download (temp_dir path data : string) (s : State) : State :=
  MkState (<[path := File data]> (<[temp_dir := Dir]> (fs s)))
          (S (tmp_count s)) (calls s) (stdout s) (temp_paths s).

(** The file that the download of [url] gives when it is the [n]-th call
    of [mkdtemp], if a stream is chosen for it. *)
Definition downloaded_path (env : Env) (n : nat) (url : json) : option string :=
  match youtube_streams env url with
  | Ok streams =>
      match select_stream streams with
      | Some stream =>
          Some (path_join (mkdtemp_name env n) (default_filename stream))
      | None => None
      end
  | Raise _ => None
  end.

(** A URL whose download goes through. *)
Definition fetchable (env : Env) (url : json) : Prop :=
  exists streams stream data,
    youtube_streams env url = Ok streams
    /\ select_stream streams = Some stream
    /\ stream_download env stream = Done data.

(** The work directory, the narration and the output of a job started in
    state [s]. *)
Definition work_dir_of (env : Env) (s : State) : string :=
  mkdtemp_name env (tmp_count s).
Definition voice_path_of (env : Env) (s : State) : string :=
  path_join (work_dir_of env s) "narration.mp3".
Definition output_path_of (env : Env) (s : State) : string :=
  path_join (work_dir_of env s) "final_output.mp4".
Definition concat_list_of (env : Env) (s : State) : string :=
  path_join (work_dir_of env s) "concat.txt".
Definition combined_video_of (env : Env) (s : State) : string :=
  path_join (work_dir_of env s) "combined.mp4".

(** The state in which ffmpeg is run on the list of the downloads. *)
Definition before_concat (env : Env) (s : State) (videos : list string)
    (s4 : State) : State :=
  set_fs (insert (concat_list_of env s) (File (concat_lines videos)))
         (logged "🔄 Combining videos..." s4).

Definition after_concat (env : Env) (s : State) (videos : list string)
    (data : string) (s4 : State) : State :=
  logged "🎬 Creating final video..."
    (registered [concat_list_of env s; combined_video_of env s]
      (after_run (concat_argv (concat_list_of env s) (combined_video_of env s))
                 data (before_concat env s videos s4))).

(** The state when the loop over the URLs starts, [audio] being what gTTS
    wrote. *)
Definition before_downloads (env : Env) (s : State) (audio : string) : State :=
  logged "📥 Downloading videos..."
    (logged "📝 Creating transcript..."
      (registered [voice_path_of env s]
        (set_fs (insert (voice_path_of env s) (File audio))
          (logged "🎤 Generating voice narration..."
            (registered [work_dir_of env s]
              (MkState (<[work_dir_of env s := Dir]> (fs s)) (S (tmp_count s))
                       (calls s) (stdout s) (temp_paths s))))))).

(** Steps 4 and 5 of [process_video], from the transcript and the
    downloaded files. *)
Definition compose (env : Env) (s : State) (result : list segment)
    (video_segments : list string) : M (string * list string) :=
  input_video <-
    (if 1 <? length video_segments then
       print "🔄 Combining videos..." ;;
       let concat_list := concat_list_of env s in
       write_file concat_list (concat_lines video_segments) ;;
       let combined_video := combined_video_of env s in
       subprocess_run env (concat_argv concat_list combined_video) ;;
       extend_temp_paths [concat_list; combined_video] ;;
       ret combined_video
     else
       match video_segments with
       | video :: _ => ret video
       | [] => raise "list index out of range"
       end) ;;
  print "🎬 Creating final video..." ;;
  let output_path := output_path_of env s in
  let subtitle_filter := create_subtitle_filter (str_float env) result in
  subprocess_run env
    (mux_argv input_video (voice_path_of env s) subtitle_filter output_path) ;;
  temp_paths <- gets temp_paths ;;
  ret (output_path, temp_paths).

End Terms.

(** ** Concrete runs *)

Module Scenarios.
Import Caption Pytube Effects Python App.

(** The text of a value that is a [str]. *)
Definition text_of (v : json) : string :=
  match v with
  | JString s => s
  | _ => ""
  end.

Definition tmp_names (n : nat) : string :=
  "/tmp/tmp" +:+ String (ascii_of_nat (48 + n)) "".

Definition hello_world : list segment :=
  [Segment (Some [WordInfo "Hello" 0%float 0.5%float;
                  WordInfo "world" 0.5%float 1%float])].

Definition stream_of (res : nat) (name : string) : Stream :=
  MkStream 22 true "mp4" (Some res) name.

Definition serve (files : gmap string node) (path : string) : result string :=
  match files !! path with
  | Some (File data) => Ok data
  | _ => Raise "file not found"
  end.

(** Every collaborator works; each URL has one 720p progressive stream
    named after it. *)
Definition fair_env (transcript : list segment) : Env :=
  MkEnv tmp_names
        (fun _ => Done "narration")
        (fun _ => Ok transcript)
        (fun url => Ok [stream_of 720 (text_of url +:+ ".mp4")])
        (fun stream => Done (default_filename stream))
        (fun _ _ => Done "video")
        serve
        (fun _ => "0.0").

(** As [fair_env], but the download of every stream breaks. *)
Definition broken_download_env : Env :=
  MkEnv tmp_names
        (fun _ => Done "narration")
        (fun _ => Ok hello_world)
        (fun url => Ok [stream_of 720 (text_of url +:+ ".mp4")])
        (fun _ => Failed None "connection reset")
        (fun _ _ => Done "video")
        serve
        (fun _ => "0.0").

(** No removal ever fails. *)
Definition no_errors : OsErrors := MkOsErrors (fun _ => None) (fun _ => None).

(** Removing the file [path] is refused. *)
Definition refuses (path : string) : OsErrors :=
  MkOsErrors (fun p => if String.eqb p path then Some "Permission denied" else None)
             (fun _ => None).

(** A machine with an empty [/tmp]. *)
Definition boot : State := MkState {[ "/tmp" := Dir ]} 0 [] [] [].

(** A source that only offers a 1080p progressive stream. *)
Definition full_hd_only : list Stream := [stream_of 1080 "clip.mp4"].

(** As [fair_env], but the download of [urlB] breaks. *)
Definition second_download_breaks : Env :=
  MkEnv tmp_names
        (fun _ => Done "narration")
        (fun _ => Ok hello_world)
        (fun url => Ok [stream_of 720 (text_of url +:+ ".mp4")])
        (fun stream =>
           if String.eqb (default_filename stream) "urlB.mp4"
           then Failed None "connection reset"
           else Done (default_filename stream))
        (fun _ _ => Done "video")
        serve
        (fun _ => "0.0").

(** The runs of [process_video] that the examples look at. *)
Definition one_url_run : result (string * list string) * State :=
  process_video (fair_env hello_world) no_errors (JString "Hello world")
                [JString "urlA"] boot.

Definition two_urls_run : result (string * list string) * State :=
  process_video (fair_env hello_world) no_errors (JString "Hello world")
                [JString "urlA"; JString "urlB"] boot.

Definition broken_run : result (string * list string) * State :=
  process_video broken_download_env no_errors (JString "Hello world")
                [JString "urlA"] boot.

Definition half_broken_run : result (string * list string) * State :=
  process_video second_download_breaks no_errors (JString "Test")
                [JString "urlA"; JString "urlB"] boot.

(** The value of [-vf] in a command line is the empty text. *)
Fixpoint has_empty_filter (argv : list string) : bool :=
  match argv with
  | [] => false
  | flag :: rest =>
      match rest with
      | value :: _ =>
          (String.eqb flag "-vf" && String.eqb value "") || has_empty_filter rest
      | [] => false
      end
  end.

(** As [fair_env], but ffmpeg refuses an empty filter graph, writing
    nothing. *)
Definition strict_ffmpeg_env (transcript : list segment) : Env :=
  MkEnv tmp_names
        (fun _ => Done "narration")
        (fun _ => Ok transcript)
        (fun url => Ok [stream_of 720 (text_of url +:+ ".mp4")])
        (fun stream => Done (default_filename stream))
        (fun _ argv =>
           if has_empty_filter argv
           then Failed None "ffmpeg returned non-zero exit status 1."
           else Done "video")
        serve
        (fun _ => "0.0").

Definition silent_strict_run : result (string * list string) * State :=
  process_video (strict_ffmpeg_env [Segment None; Segment (Some [])]) no_errors
                (JString "...") [JString "urlA"] boot.

Definition spoken_strict_run : result (string * list string) * State :=
  process_video (strict_ffmpeg_env hello_world) no_errors
                (JString "Hello world") [JString "urlA"] boot.

(** A request with eleven links. *)
Definition eleven_links : request :=
  Json (JObject [("prompt", JString "Test");
                 ("links", JArray (replicate 11 (JString "urlA")))]).

(** A transcript whose first word has no character of the class, and
    whose second segment has no ["words"] key. *)
Definition odd_words : list segment :=
  [Segment (Some [WordInfo "¿¡" 0%float 0.5%float;
                  WordInfo "Hello" 0.5%float 1%float]);
   Segment None].

(** The files of a finished job, and its list of paths: a directory
    before a file in it, a file before its directory. *)
Definition job_files : State :=
  MkState (list_to_map [("/tmp", Dir); ("/tmp/w", Dir);
                        ("/tmp/w/narration.mp3", File "narration");
                        ("/tmp/d", Dir); ("/tmp/d/clip.mp4", File "clip")])
          2 [] [] [].

Definition job_paths : list string :=
  ["/tmp/w"; "/tmp/w/narration.mp3"; "/tmp/d/clip.mp4"; "/tmp/d"].

End Scenarios.

(** ** Vocabulary of the further statements *)

Module Ledger.
Import Caption Pytube Effects App Terms.

(** The characters that end or escape a quoted option of a filter. *)
Definition breaks_quoting (c : ascii) : bool :=
  Ascii.eqb c "'" || Ascii.eqb c "\" || Ascii.eqb c ":" || Ascii.eqb c "%".

(** A segment that gives the loop of [create_subtitle_filter] something to
    do. *)
Definition has_words (s : segment) : bool :=
  match segment_words s with
  | [] => false
  | _ :: _ => true
  end.

(** What the two calls of [filter] in [download_youtube_video] ask of a
    stream. *)
Definition progressive_mp4 (s : Stream) : bool :=
  is_progressive s && String.eqb (subtype s) "mp4".

Definition progressive_mp4_720 (s : Stream) : bool :=
  progressive_mp4 s && res_is 720 s.

(** A stream that one of the two queries can return. *)
Definition suitable (s : Stream) : bool :=
  progressive_mp4 s && bool_decide (is_Some (resolution s)).

(** [m] takes a state with [P] to a state with [P], unless [broken] holds
    and [m] raised. *)
Definition keeps {A} (P : State -> Prop) (broken : Prop) (m : M A) : Prop :=
  forall s r s', m s = (r, s') ->
    P s -> P s' \/ (broken /\ exists e, r = Raise e).

(** The books of a job whose work directory is [work_dir] and that started
    on the files [files0]: the work directory heads [temp_paths] and is a
    directory, and a path that is neither in the work directory nor in
    [temp_paths] holds what it held at the start. *)
Definition tracked (work_dir : string) (files0 : gmap string node) (s : State)
  : Prop :=
  (exists rest, temp_paths s = work_dir :: rest)
  /\ fs s !! work_dir = Some Dir
  /\ forall k, k <> work_dir -> inside work_dir k = false ->
       k ∉ temp_paths s -> fs s !! k = files0 !! k.

(** No file in a directory of [mkdtemp] is named as the work directory of
    the job started in [s]. *)
Definition no_clash (env : Env) (s : State) : Prop :=
  forall n name, path_join (mkdtemp_name env n) name <> work_dir_of env s.

Definition never_breaks (env : Env) : Prop :=
  forall stream, exists data, stream_download env stream = Done data.

Definition some_download_breaks (env : Env) : Prop :=
  exists stream partial msg, stream_download env stream = Failed partial msg.

Definition never_refuses (os : OsErrors) : Prop :=
  forall path msg, ~ refused os path msg.

Definition is_dir (files : gmap string node) (path : string) : bool :=
  match files !! path with
  | Some Dir => true
  | _ => false
  end.

(** The components of a path, the text between its slashes. *)
Fixpoint components (current path : string) : list string :=
  match path with
  | EmptyString => [current]
  | String c rest =>
      if Ascii.eqb c "/" then current :: components "" rest
      else components (current +:+ String c "") rest
  end.

(** A path written the way [mkdtemp] and [os.path.join] write the paths of
    a job: absolute, below the root, without an empty component (a doubled
    or a trailing slash) and without a component [.] or [..].  A file has
    one path of this form when no link is followed. *)
Definition canonical (path : string) : bool :=
  match components "" path with
  | first :: (_ :: _) as parts =>
      String.eqb first ""
      && forallb (fun part =>
                    negb (String.eqb part "" || String.eqb part "."
                          || String.eqb part "..")) parts
  | _ => false
  end.

(** [k] is the path [p], or lies in the directory [p]. *)
Definition swept (files : gmap string node) (p k : string) : bool :=
  String.eqb k p || (is_dir files p && inside p k).

(** [k] is a path of the list, or lies in a directory of the list. *)
Definition doomed (files : gmap string node) (paths : list string) (k : string)
  : bool :=
  existsb (fun p => swept files p k) paths.

(** What the loop over the URLs appends to [temp_paths], the first
    directory being the [n]-th of [mkdtemp]. *)
Definition download_entries (env : Env) (n : nat) (videos : list string)
  : list string :=
  concat (imap (fun i video => [video; mkdtemp_name env (n + i)]) videos).

(** The list [temp_paths] of a job that returns. *)
Definition registry (env : Env) (s : State) (videos : list string)
  : list string :=
  [work_dir_of env s; voice_path_of env s]
  ++ download_entries env (S (tmp_count s)) videos
  ++ (if 1 <? length videos
      then [concat_list_of env s; combined_video_of env s] else []).

(** The first [m + 1] directories that [mkdtemp] will make from state [s]
    are not on disk, and nothing is in them. *)
Definition unused (env : Env) (s : State) (m : nat) : Prop :=
  forall i k, i <= m ->
    k = mkdtemp_name env (tmp_count s + i)
    \/ inside (mkdtemp_name env (tmp_count s + i)) k = true ->
    fs s !! k = None.

(** The state in which gTTS is called. *)
Definition before_narration (env : Env) (s : State) : State :=
  logged "🎤 Generating voice narration..."
    (registered [work_dir_of env s]
      (MkState (<[work_dir_of env s := Dir]> (fs s)) (S (tmp_count s))
               (calls s) (stdout s) (temp_paths s))).

(** The state in which whisper is called, [audio] being what gTTS wrote. *)
Definition before_transcript (env : Env) (s : State) (audio : string) : State :=
  logged "📝 Creating transcript..."
    (registered [voice_path_of env s]
      (set_fs (insert (voice_path_of env s) (File audio))
              (before_narration env s))).

End Ledger.

(** ** More concrete runs *)

Module MoreScenarios.
Import Caption Pytube Effects Python App Terms Scenarios.

(** A listing with two progressive mp4 streams at 720p after a lower one
    and an audio track. *)
Definition mixed_listing_head : list Stream :=
  [stream_of 480 "low.mp4"; MkStream 140 false "mp4" None "audio.mp4"].

Definition mixed_listing_tail : list Stream := [stream_of 720 "second.mp4"].

(** A listing without 720p: progressive mp4 at 360p and 480p, and a 1080p
    stream that is not progressive. *)
Definition low_listing : list Stream :=
  [stream_of 360 "small.mp4"; stream_of 480 "medium.mp4";
   MkStream 248 false "webm" (Some 1080) "large.webm"].

(** A listing with nothing the queries accept. *)
Definition audio_only : list Stream :=
  [MkStream 140 false "mp4" None "audio.mp4";
   MkStream 43 true "webm" (Some 360) "small.webm"].

(** As [fair_env], but [urlX] does not exist and [urlY] has only
    [audio_only]. *)
Definition picky_env : Env :=
  MkEnv tmp_names
        (fun _ => Done "narration")
        (fun _ => Ok hello_world)
        (fun url =>
           if String.eqb (text_of url) "urlX" then Raise "urlX is unavailable"
           else if String.eqb (text_of url) "urlY" then Ok audio_only
           else Ok [stream_of 720 (text_of url +:+ ".mp4")])
        (fun stream => Done (default_filename stream))
        (fun _ _ => Done "video")
        serve
        (fun _ => "0.0").

(** As [fair_env], but ffmpeg exits with an error after writing a part of
    its output. *)
Definition ffmpeg_fails_env : Env :=
  MkEnv tmp_names
        (fun _ => Done "narration")
        (fun _ => Ok hello_world)
        (fun url => Ok [stream_of 720 (text_of url +:+ ".mp4")])
        (fun stream => Done (default_filename stream))
        (fun _ _ => Failed (Some "part") "ffmpeg returned non-zero exit status 1.")
        serve
        (fun _ => "0.0").

Definition ffmpeg_failed_run : result (string * list string) * State :=
  process_video ffmpeg_fails_env no_errors (JString "Hello world")
                [JString "urlA"; JString "urlB"] boot.

Definition unavailable_run : result (string * list string) * State :=
  process_video picky_env no_errors (JString "Hello world")
                [JString "urlA"; JString "urlX"] boot.

Definition two_links : request :=
  Json (JObject [("prompt", JString "Hello world");
                 ("links", JArray [JString "urlA"; JString "urlB"])]).

Definition delivered_run : result response * State :=
  generate_video (fair_env hello_world) no_errors two_links boot.

Definition one_download : result (string * string) * State :=
  download_youtube_video (fair_env hello_world) (JString "urlA") boot.

Definition failed_answer : result response * State :=
  generate_video ffmpeg_fails_env no_errors two_links boot.

(** The list [job_paths] in another order, with a path twice. *)
Definition job_paths_shuffled : list string :=
  ["/tmp/d"; "/tmp/w/narration.mp3"; "/tmp/w"; "/tmp/d/clip.mp4"; "/tmp/d"].

End MoreScenarios.

(** ** Results about the caption compiler *)

Module CaptionFacts.
Import Caption.

Lemma clean_text_allowed (x : string) : all_chars allowed (clean_text x) = true.
Proof.
  induction x as [|c x IH]; simpl; [reflexivity|].
  destruct (allowed c) eqn:Hc; simpl; [rewrite Hc|]; exact IH.
Qed.

Lemma clean_text_fixed (x : string) :
  all_chars allowed x = true -> clean_text x = x.
Proof.
  induction x as [|c x IH]; simpl; [reflexivity|].
  intros [Hc Hx]%andb_prop. rewrite Hc, (IH Hx). reflexivity.
Qed.

(** C6: the sanitizer is idempotent and its output only has characters of
    the class [A-Za-z0-9,.?! ], for every input string. *)
Theorem clean_text_idempotent_allow_set (x : string) :
  clean_text (clean_text x) = clean_text x
  /\ all_chars allowed (clean_text x) = true.
Proof.
  split.
  - apply clean_text_fixed, clean_text_allowed.
  - apply clean_text_allowed.
Qed.

Lemma filters_flat str_float (segments : list segment) :
  filters str_float segments
  = map (filter_text str_float) (transcript_words segments).
Proof.
  unfold transcript_words.
  induction segments as [|s segments IH]; simpl; [reflexivity|].
  rewrite IH, map_app. reflexivity.
Qed.

(** C5: the filter that [create_subtitle_filter] returns is the drawtext
    instructions of all the words of the transcript, one per word, segment
    by segment and word by word, joined by commas; there are as many
    instructions as words; and a word that the sanitizer empties has its
    instruction, with [text='']. *)
Theorem create_subtitle_filter_one_per_word str_float
    (segments : list segment) :
  let all_words :=
    flat_map (fun segment =>
                match words segment with Some ws => ws | None => [] end)
             segments in
  let instruction (w : word_info) :=
    "drawtext=font='Arial':text='" +:+ clean_text (word w)
    +:+ "':fontsize=60:fontcolor=white:bordercolor=black:borderw=2:x=(w-text_w)/2:y=(h-text_h)/2:enable='between(t,"
    +:+ str_float (start w) +:+ "," +:+ str_float (end_ w) +:+ ")'" in
  create_subtitle_filter str_float segments
  = String.concat "," (map instruction all_words)
  /\ length (map instruction all_words)
     = sum_list (map (fun segment =>
                        match words segment with
                        | Some ws => length ws
                        | None => 0
                        end) segments)
  /\ (forall w, clean_text (word w) = "" ->
        instruction w
        = "drawtext=font='Arial':text='':fontsize=60:fontcolor=white:bordercolor=black:borderw=2:x=(w-text_w)/2:y=(h-text_h)/2:enable='between(t,"
          +:+ str_float (start w) +:+ "," +:+ str_float (end_ w) +:+ ")'").
Proof.
  intros all_words instruction. split; [|split].
  - unfold create_subtitle_filter. f_equal. subst all_words.
    induction segments as [|segment segments IH]; simpl; [reflexivity|].
    rewrite IH, List.map_app. reflexivity.
  - rewrite length_map. subst all_words.
    induction segments as [|segment segments IH]; simpl; [reflexivity|].
    rewrite length_app, IH. destruct (words segment); reflexivity.
  - intros w Hw. subst instruction. simpl. rewrite Hw. reflexivity.
Qed.

End CaptionFacts.

(** ** Results about the choice of a stream *)

Module PytubeFacts.
Import Pytube Terms Scenarios.

Lemma insert_sorted_elem s t l : t ∈ insert_sorted s l <-> t = s \/ t ∈ l.
Proof.
  induction l as [|u l IH]; simpl.
  - rewrite list_elem_of_singleton. split; [by left|].
    intros [H|H]; [done | by apply elem_of_nil in H].
  - destruct (res_key s <=? res_key u); [by rewrite elem_of_cons|].
    rewrite !elem_of_cons, IH. split.
    + intros [H|[H|H]]; [right; by left | by left | right; by right].
    + intros [H|[H|H]]; [right; by left | by left | right; by right].
Qed.

Lemma sorted_by_resolution_elem t l : t ∈ sorted_by_resolution l <-> t ∈ l.
Proof.
  induction l as [|u l IH]; simpl; [reflexivity|].
  rewrite insert_sorted_elem, elem_of_cons, IH. reflexivity.
Qed.

Lemma insert_sorted_sorted s l :
  StronglySorted key_le l -> StronglySorted key_le (insert_sorted s l).
Proof.
  induction 1 as [|u l Hl IH Hu]; simpl.
  - repeat constructor.
  - destruct (res_key s <=? res_key u) eqn:E.
    + apply Nat.leb_le in E. constructor; [by constructor|].
      constructor; [exact E|].
      eapply Forall_impl; [exact Hu|]. unfold key_le. simpl. lia.
    + apply Nat.leb_gt in E. constructor; [exact IH|].
      apply Forall_forall. intros t [->|Ht]%insert_sorted_elem.
      * unfold key_le. lia.
      * rewrite Forall_forall in Hu. by apply Hu.
Qed.

Lemma sorted_by_resolution_sorted l :
  StronglySorted key_le (sorted_by_resolution l).
Proof.
  induction l; simpl; [constructor | by apply insert_sorted_sorted].
Qed.

Lemma sorted_last_highest l m :
  StronglySorted key_le l -> last l = Some m ->
  forall t, t ∈ l -> res_key t <= res_key m.
Proof.
  induction 1 as [|u l Hl IH Hu]; [done|].
  intros Hm t Ht. destruct l as [|v l].
  - simpl in Hm. apply list_elem_of_singleton in Ht. by simplify_eq.
  - rewrite last_cons_cons in Hm. apply elem_of_cons in Ht as [->|Ht].
    + rewrite Forall_forall in Hu. etrans; [apply Hu|apply IH]; try done.
      * by eapply last_Some_elem_of.
      * by eapply last_Some_elem_of.
    + by apply IH.
Qed.

(** When a progressive mp4 stream at 720p is offered, one such stream is
    chosen. *)
Lemma select_stream_prefers_720 streams s :
  s ∈ filter_progressive_mp4 (Some 720) streams ->
  exists stream, select_stream streams = Some stream
                 /\ stream ∈ streams /\ resolution stream = Some 720.
Proof.
  intros Hs. unfold select_stream, first.
  destruct (filter_progressive_mp4 (Some 720) streams) as [|t l] eqn:E.
  - by apply elem_of_nil in Hs.
  - exists t. split; [done|].
    assert (Ht : In t (filter_progressive_mp4 (Some 720) streams))
      by (rewrite E; by left).
    apply filter_In in Ht as [Ht Hp]. split; [by apply list_elem_of_In|].
    apply andb_prop in Hp as [_ Hp]. unfold res_is in Hp.
    destruct (resolution t); [|done]. by apply Nat.eqb_eq in Hp as ->.
Qed.

(** Otherwise the choice is a progressive mp4 stream of the highest
    resolution on offer, whatever that resolution is. *)
Lemma select_stream_fallback_highest streams stream :
  filter_progressive_mp4 (Some 720) streams = [] ->
  select_stream streams = Some stream ->
  stream ∈ filter_progressive_mp4 None streams
  /\ forall t, t ∈ filter_progressive_mp4 None streams ->
       is_Some (resolution t) -> res_key t <= res_key stream.
Proof.
  intros E. unfold select_stream, first, desc. rewrite E. simpl.
  rewrite head_reverse. unfold order_by_resolution. intros Hm. split.
  - apply last_Some_elem_of in Hm. apply (proj1 (sorted_by_resolution_elem _ _)) in Hm.
    apply list_elem_of_In in Hm. apply filter_In in Hm as [Hm _].
    by apply list_elem_of_In.
  - intros t Ht Hr.
    eapply sorted_last_highest; [apply sorted_by_resolution_sorted|done|].
    apply sorted_by_resolution_elem. apply list_elem_of_In. apply filter_In.
    split; [by apply list_elem_of_In | by apply bool_decide_eq_true].
Qed.

(** C2, at a source that only offers 1080p: the stream chosen is the
    1080p one, above the ceiling of 720p. *)
Theorem select_stream_above_ceiling :
  exists stream, select_stream full_hd_only = Some stream
                 /\ resolution stream = Some 1080 /\ 720 < 1080.
Proof. eexists. split; [reflexivity|]. split; [reflexivity|lia]. Qed.

End PytubeFacts.

(** ** Results about the removal of temporary files *)

Module CleanupFacts.
Import Effects Terms Scenarios.

Lemma bind_Ok_inv {A B} (m : M A) (k : A -> M B) s b s' :
  bind m k s = (Ok b, s') ->
  exists a s1, m s = (Ok a, s1) /\ k a s1 = (Ok b, s').
Proof.
  unfold bind. destruct (m s) as [[a|e] s1]; [eauto | discriminate].
Qed.

Lemma bind_Ok_eq {A B} (m : M A) (k : A -> M B) s a s1 :
  m s = (Ok a, s1) -> bind m k s = k a s1.
Proof. unfold bind. by intros ->. Qed.

Lemma clean_temp_files_cons os path rest :
  clean_temp_files os (path :: rest)
  = (clean_path os path ;; clean_temp_files os rest).
Proof. reflexivity. Qed.

Lemma clean_path_absent os path s :
  fs s !! path = None -> clean_path os path s = (Ok tt, s).
Proof.
  intros H. unfold clean_path, try_except, bind, os_path_isdir,
    os_path_exists, gets. rewrite H. simpl. rewrite H. reflexivity.
Qed.

Lemma clean_path_spec os path s :
  exists s', clean_path os path s = (Ok tt, s')
    /\ fs s' ⊆ fs s /\ same_frame s s'
    /\ ((stdout s' = stdout s /\ fs s' !! path = None)
        \/ exists msg, refused os path msg
             /\ stdout s' = stdout s ++ [error_line path msg]).
Proof.
  unfold clean_path, try_except, bind, os_path_isdir, os_path_exists, gets,
    shutil_rmtree, os_remove, refused, same_frame.
  destruct (fs s !! path) as [[|data]|] eqn:E.
  - destruct (rmtree_error os path) as [[msg gone]|] eqn:R; simpl.
    + eexists. split; [reflexivity|]. simpl.
      split; [apply map_filter_subseteq|]. split; [done|].
      right. exists msg. split; [right; by exists gone | done].
    + eexists. split; [reflexivity|]. simpl.
      split; [apply map_filter_subseteq|]. split; [done|].
      left. split; [done|]. apply map_lookup_filter_None. right.
      intros x _. simpl. rewrite String.eqb_refl. simpl. discriminate.
  - simpl. rewrite E. simpl.
    destruct (remove_error os path) as [msg|] eqn:R; simpl.
    + eexists. split; [reflexivity|]. simpl. split; [done|]. split; [done|].
      right. exists msg. split; [by left | done].
    + eexists. split; [reflexivity|]. simpl.
      split; [apply delete_subseteq|]. split; [done|].
      left. split; [done | apply lookup_delete_eq].
  - exists s. simpl. rewrite E. simpl.
    split; [reflexivity|]. split; [done|]. split; [done|]. by left.
Qed.

Lemma clean_temp_files_spec os paths s :
  exists s' lines, clean_temp_files os paths s = (Ok tt, s')
    /\ fs s' ⊆ fs s /\ same_frame s s'
    /\ stdout s' = stdout s ++ lines /\ reports os paths lines
    /\ forall path, path ∈ paths ->
         fs s' !! path = None
         \/ exists msg, refused os path msg /\ error_line path msg ∈ lines.
Proof.
  revert s. induction paths as [|p paths IH]; intros s.
  - exists s, []. simpl. split; [reflexivity|]. split; [done|].
    split; [done|]. split; [by rewrite app_nil_r|]. split; [constructor|].
    intros path H. by apply elem_of_nil in H.
  - destruct (clean_path_spec os p s) as (s1 & E1 & Hfs1 & Hfr1 & Hp).
    destruct (IH s1) as (s2 & lines & E2 & Hfs2 & Hfr2 & Hout & Hrep & Hall).
    assert (Hlines : exists l1, stdout s1 = stdout s ++ l1 /\ reports os [p] l1
              /\ (fs s1 !! p = None
                  \/ exists msg, refused os p msg /\ error_line p msg ∈ l1)).
    { destruct Hp as [[Ho Hn]|(msg & Hr & Ho)].
      - exists []. rewrite app_nil_r. split; [done|]. split; [constructor|].
        by left.
      - exists [error_line p msg]. split; [done|]. split.
        + constructor; [|constructor]. exists p, msg.
          split; [by apply list_elem_of_singleton | done].
        + right. exists msg. split; [done | by apply list_elem_of_singleton]. }
    destruct Hlines as (l1 & Ho1 & Hrep1 & Hp1).
    exists s2, (l1 ++ lines). rewrite clean_temp_files_cons.
    split; [by rewrite (bind_Ok_eq _ _ _ _ _ E1)|].
    split; [by etrans|].
    split. { destruct Hfr1 as (?&?&?), Hfr2 as (?&?&?). unfold same_frame.
             repeat split; congruence. }
    split; [by rewrite Hout, Ho1, app_assoc|].
    split.
    { apply Forall_app. split.
      - eapply Forall_impl; [exact Hrep1|]. intros line (q & msg & Hq & Hr & ->).
        exists q, msg. apply list_elem_of_singleton in Hq as ->.
        split; [by left | done].
      - eapply Forall_impl; [exact Hrep|]. intros line (q & msg & Hq & Hr & ->).
        exists q, msg. split; [by right | done]. }
    intros path [->|Hin]%elem_of_cons.
    + destruct Hp1 as [Hn|(msg & Hr & Hl)].
      * left. by eapply lookup_weaken_None.
      * right. exists msg. split; [done|]. apply elem_of_app. by left.
    + destruct (Hall path Hin) as [Hn|(msg & Hr & Hl)]; [by left|].
      right. exists msg. split; [done|]. apply elem_of_app. by right.
Qed.

Lemma clean_temp_files_calls os paths s s' :
  clean_temp_files os paths s = (Ok tt, s') -> calls s' = calls s.
Proof.
  intros E.
  destruct (clean_temp_files_spec os paths s) as (s1 & lines & E1 & _ & F & _).
  rewrite E in E1. injection E1 as <-. apply F.
Qed.

Lemma clean_temp_files_absent os paths s :
  (forall path, path ∈ paths -> fs s !! path = None) ->
  clean_temp_files os paths s = (Ok tt, s).
Proof.
  induction paths as [|p paths IH]; intros H; [reflexivity|].
  rewrite clean_temp_files_cons.
  rewrite (bind_Ok_eq _ _ _ tt s).
  - apply IH. intros path Hp. apply H. by right.
  - apply clean_path_absent, H. by left.
Qed.

Lemma clean_temp_files_returns os paths s :
  exists s', clean_temp_files os paths s = (Ok tt, s').
Proof.
  destruct (clean_temp_files_spec os paths s) as (s' & _ & E & _). eauto.
Qed.

(** A refused removal is printed and the pass goes on to the next path. *)
Example refused_removal_is_logged :
  clean_temp_files (refuses "/tmp/d/clip.mp4") ["/tmp/d/clip.mp4"; "/tmp/w"]
                   job_files
  = (Ok tt,
     MkState (list_to_map [("/tmp", Dir); ("/tmp/d", Dir);
                           ("/tmp/d/clip.mp4", File "clip")])
             2 [] ["Error cleaning up /tmp/d/clip.mp4: Permission denied"] []).
Proof. vm_compute. reflexivity. Qed.

(** *** A second pass *)

Lemma inside_irrefl path : inside path path = false.
Proof.
  unfold inside. induction path as [|c path IH]; simpl; [reflexivity|].
  destruct (ascii_dec c c); [exact IH | reflexivity].
Qed.

Lemma clean_path_settles os path s s1 :
  clean_path os path s = (Ok tt, s1) -> settled os path (fs s1).
Proof.
  unfold clean_path, try_except, bind, os_path_isdir, os_path_exists, gets,
    shutil_rmtree, os_remove, settled.
  destruct (fs s !! path) as [[|data]|] eqn:E.
  - destruct (rmtree_error os path) as [[msg gone]|] eqn:R; simpl.
    + intros [= <-]. simpl.
      rewrite (map_lookup_filter_Some_2 _ _ path Dir E).
      * exists msg, gone. split; [done|]. intros k [x Hk].
        apply map_lookup_filter_Some in Hk as [_ Hk]. simpl in Hk.
        by apply negb_true_iff in Hk.
      * simpl. by rewrite inside_irrefl.
    + intros [= <-]. simpl.
      rewrite (proj2 (map_lookup_filter_None _ _ path)); [done|].
      right. intros x _. simpl. by rewrite String.eqb_refl.
  - simpl. rewrite E. simpl.
    destruct (remove_error os path) as [msg|] eqn:R; simpl.
    + intros [= <-]. simpl. rewrite E. by exists msg.
    + intros [= <-]. simpl. by rewrite lookup_delete_eq.
  - simpl. rewrite E. simpl. intros [= <-]. by rewrite E.
Qed.

Lemma settled_weaken os path (files files' : gmap string node) :
  files' ⊆ files -> settled os path files -> settled os path files'.
Proof.
  intros Hsub. unfold settled.
  destruct (files' !! path) as [n|] eqn:E; [|done].
  rewrite (lookup_weaken _ _ _ _ E Hsub). destruct n as [|data]; [|done].
  intros (msg & gone & R & Hk). exists msg, gone. split; [done|].
  intros k [x Hx]. apply Hk. exists x. by eapply lookup_weaken.
Qed.

Lemma clean_path_settled os path s :
  settled os path (fs s) ->
  exists s1, clean_path os path s = (Ok tt, s1) /\ fs s1 = fs s.
Proof.
  unfold clean_path, try_except, bind, os_path_isdir, os_path_exists, gets,
    shutil_rmtree, os_remove, settled.
  destruct (fs s !! path) as [[|data]|] eqn:E.
  - intros (msg & gone & -> & Hk). simpl. eexists. split; [reflexivity|].
    simpl. apply map_filter_id. intros k x Hx. simpl.
    apply negb_true_iff, Hk. by exists x.
  - intros [msg ->]. simpl. rewrite E. simpl. eexists. by split.
  - intros _. simpl. rewrite E. simpl. eexists. by split.
Qed.

Lemma clean_temp_files_settles os paths : forall s s1,
  clean_temp_files os paths s = (Ok tt, s1) ->
  Forall (fun path => settled os path (fs s1)) paths.
Proof.
  induction paths as [|p paths IH]; intros s s1 H; [constructor|].
  rewrite clean_temp_files_cons in H.
  apply bind_Ok_inv in H as ([] & sa & P & R).
  constructor; [|by eapply IH].
  destruct (clean_temp_files_spec os paths sa) as (s' & _ & E & Hsub & _).
  rewrite R in E. injection E as <-.
  eapply settled_weaken; [exact Hsub|]. by eapply clean_path_settles.
Qed.

Lemma clean_temp_files_settled os paths : forall s,
  Forall (fun path => settled os path (fs s)) paths ->
  exists s1, clean_temp_files os paths s = (Ok tt, s1) /\ fs s1 = fs s.
Proof.
  induction paths as [|p paths IH]; intros s H; [by exists s|].
  apply Forall_cons in H as [Hp H].
  destruct (clean_path_settled os p s Hp) as (sa & P & Ea).
  rewrite <- Ea in H. destruct (IH sa H) as (s1 & R & E1).
  exists s1. rewrite clean_temp_files_cons, (bind_Ok_eq _ _ _ _ _ P).
  split; [done | congruence].
Qed.

(** C10: for every list of paths, [clean_temp_files] returns; where no
    path of the list is on disk it changes nothing; a second pass over the
    same list leaves the disk as the first pass left it; and when no
    removal is refused, the first pass prints nothing, leaves no path of the
    list behind, and the second pass changes nothing at all. *)
Theorem clean_temp_files_idempotent os paths s :
  exists s1 s2,
    clean_temp_files os paths s = (Ok tt, s1)
    /\ clean_temp_files os paths s1 = (Ok tt, s2)
    /\ fs s2 = fs s1
    /\ (Forall (fun path => fs s !! path = None) paths -> s1 = s)
    /\ (Forall (fun path => forall msg, ~ refused os path msg) paths ->
        Forall (fun path => fs s1 !! path = None) paths
        /\ stdout s1 = stdout s /\ s2 = s1).
Proof.
  destruct (clean_temp_files_spec os paths s)
    as (s1 & lines & E1 & _ & _ & Hout & Hrep & Hall).
  destruct (clean_temp_files_settled os paths s1) as (s2 & E2 & Hfs).
  { by eapply clean_temp_files_settles. }
  exists s1, s2. split; [done|]. split; [done|]. split; [done|]. split.
  - intros Habs. rewrite clean_temp_files_absent in E1.
    + by injection E1 as <-.
    + by apply Forall_forall.
  - intros Hok. rewrite Forall_forall in Hok.
    assert (Hgone : forall path, path ∈ paths -> fs s1 !! path = None).
    { intros path Hp. destruct (Hall path Hp) as [Hn|(msg & Hr & _)]; [done|].
      by destruct (Hok path Hp msg). }
    split; [by apply Forall_forall|]. split.
    + destruct lines as [|line lines]; [by rewrite Hout, app_nil_r|].
      apply Forall_cons in Hrep as [(path & msg & Hp & Hr & _) _].
      by destruct (Hok path Hp msg).
    + rewrite (clean_temp_files_absent os paths s1 Hgone) in E2.
      by injection E2 as <-.
Qed.

End CleanupFacts.

(** ** Results about the pipeline *)

Module AppFacts.
Import Caption Pytube Effects Python App Terms Scenarios CleanupFacts.

Lemma writes_Ok_inv path o s s1 :
  writes path o s = (Ok tt, s1) ->
  exists data, o = Done data /\ s1 = set_fs (insert path (File data)) s.
Proof.
  destruct o as [data|[partial|] msg]; simpl; [|discriminate..].
  intros [= <-]. by exists data.
Qed.

Lemma subprocess_run_Ok_inv env argv s s1 :
  subprocess_run env argv s = (Ok tt, s1) ->
  exists data, ffmpeg env (fs s) argv = Done data /\ s1 = after_run argv data s.
Proof.
  unfold subprocess_run, bind, modify, gets. simpl.
  intros (data & E & ->)%writes_Ok_inv. by exists data.
Qed.

Lemma subprocess_run_Done env argv s data :
  ffmpeg env (fs s) argv = Done data ->
  subprocess_run env argv s = (Ok tt, after_run argv data s).
Proof.
  intros E. unfold subprocess_run, bind, modify, gets. simpl. by rewrite E.
Qed.

(** [process_video] is its [try] block when the block returns, and the
    wrapped error after a pass of [clean_temp_files] when it raises. *)
Lemma process_video_cases env os story urls s :
  match process_video_body env story urls (start_frame s) with
  | (Ok r, s1) => process_video env os story urls s = (Ok r, s1)
  | (Raise e, s1) =>
      exists s2, clean_temp_files os (temp_paths s1) s1 = (Ok tt, s2)
        /\ process_video env os story urls s
           = (Raise ("Video processing failed: " +:+ e), s2)
  end.
Proof.
  unfold process_video, new_temp_paths, try_except, bind, modify, gets, raise.
  fold (start_frame s).
  destruct (process_video_body _ _ _ _) as [[r|e] s1]; [done|].
  destruct (clean_temp_files_returns os (temp_paths s1) s1) as [s2 E].
  exists s2. by rewrite E.
Qed.

(** [generate_video] is its early answer, or the delivery of the job. *)
Lemma generate_video_unfold env os req s :
  generate_video env os req s
  = match early_answer req with
    | Some answer => (Ok answer, s)
    | None => deliver env os (story_of req) (urls_of req) s
    end.
Proof.
  destruct req as [msg|data]; [reflexivity|].
  destruct data as [| | | | | |members]; try reflexivity.
  unfold generate_video, early_answer, urls_of, deliver, try_except, bind,
    get_json, ret, eval.
  simpl dict_get. cbv beta iota.
  destruct (negb _ || negb _); [reflexivity|].
  destruct (py_len _) as [count|msg]; [|reflexivity].
  by destruct (10 <? count).
Qed.

(** C3 fails as it is stated: with an empty prompt and eleven links the
    message is the one about the missing prompt, and a body that is [null],
    which has no prompt, is answered with status 500. *)
Lemma validation_message_and_status_differ :
  generate_video (fair_env hello_world) no_errors
    (Json (JObject [("prompt", JString "");
                    ("links", JArray (replicate 11 (JString "urlA")))])) boot
  = (Ok (JsonError "Missing prompt or video links" 400), boot)
  /\ generate_video (fair_env hello_world) no_errors (Json JNull) boot
     = (Ok (JsonError "'NoneType' object has no attribute 'get'" 500), boot).
Proof. split; reflexivity. Qed.

(** C3, as the code has it: the checks come before any work, so every
    answer they give leaves the machine as it was, no directory made and no
    tool run.  For a body that is an object, a prompt or links that are
    missing or false (null, false, zero, empty) give status 400 with the
    message about the missing prompt or links; otherwise links that count
    more than ten give status 400 with the message about the maximum.  A
    body that cannot be read, a body that is not an object, and links
    without a length give status 500 with the error. *)
Theorem validation_answers_before_work env os req s :
  (forall msg, req = Malformed msg ->
     generate_video env os req s = (Ok (JsonError msg 500), s))
  /\ (forall data, req = Json data ->
        (forall members, data <> JObject members) ->
        generate_video env os req s
        = (Ok (JsonError ("'" +:+ type_name data
                          +:+ "' object has no attribute 'get'") 500), s))
  /\ (forall members story youtube_links,
        req = Json (JObject members) ->
        story = default JNull (assoc "prompt" members) ->
        youtube_links = default (JArray []) (assoc "links" members) ->
        (truthy story = false \/ truthy youtube_links = false ->
         generate_video env os req s
         = (Ok (JsonError "Missing prompt or video links" 400), s))
        /\ (truthy story = true -> truthy youtube_links = true ->
            forall count, py_len youtube_links = Ok count -> 10 < count ->
            generate_video env os req s
            = (Ok (JsonError "Maximum 10 videos allowed" 400), s))
        /\ (truthy story = true -> truthy youtube_links = true ->
            forall msg, py_len youtube_links = Raise msg ->
            generate_video env os req s = (Ok (JsonError msg 500), s))).
Proof.
  split; [by intros msg ->|]. split.
  - intros data -> Hno. destruct data; try reflexivity. by destruct (Hno members).
  - intros members story youtube_links -> -> ->.
    rewrite generate_video_unfold. unfold early_answer, story_of, links_of.
    split; [|split].
    + intros [->| ->]; [reflexivity|]. by rewrite orb_true_r.
    + intros -> -> count -> Hc. simpl.
      by apply Nat.ltb_lt in Hc as ->.
    + by intros -> -> msg ->.
Qed.

(** *** The downloads *)

Lemma download_youtube_video_Ok_inv env url s path temp_dir s1 :
  download_youtube_video env url s = (Ok (path, temp_dir), s1) ->
  exists data,
    temp_dir = mkdtemp_name env (tmp_count s)
    /\ downloaded_path env (tmp_count s) url = Some path
    /\ s1 = after_download temp_dir path data s.
Proof.
  unfold download_youtube_video, downloaded_path, try_except, bind, raise.
  destruct (youtube_streams env url) as [streams|e]; [|discriminate].
  destruct (select_stream streams) as [stream|]; [|discriminate].
  unfold mkdtemp.
  destruct (writes _ _ _) as [[[]|e] s2] eqn:W; [|discriminate].
  apply writes_Ok_inv in W as (data & _ & ->).
  intros [= <- <- <-]. by exists data.
Qed.

Lemma download_videos_Ok_inv env urls : forall s videos s',
  download_videos env urls s = (Ok videos, s') ->
  map Some videos = imap (fun i url => downloaded_path env (tmp_count s + i) url) urls
  /\ calls s' = calls s /\ stdout s' = stdout s.
Proof.
  induction urls as [|url urls IH]; intros s videos s' H.
  - injection H as <- <-. done.
  - simpl in H.
    apply bind_Ok_inv in H as ([path temp_dir] & s1 & D & H).
    apply download_youtube_video_Ok_inv in D as (data & -> & P & ->).
    apply bind_Ok_inv in H as ([] & s2 & [= <-] & H).
    apply bind_Ok_inv in H as (rest & s3 & R & [= <- <-]).
    apply IH in R as (Hmap & Hcalls & Hout). simpl in *.
    split; [|done]. rewrite Nat.add_0_r, P, Hmap. f_equal.
    apply imap_ext. intros i x _. simpl. f_equal. lia.
Qed.

Lemma download_youtube_video_fetchable env url s :
  fetchable env url ->
  exists path data,
    download_youtube_video env url s
    = (Ok (path, mkdtemp_name env (tmp_count s)),
       after_download (mkdtemp_name env (tmp_count s)) path data s).
Proof.
  intros (streams & stream & data & Y & S & D).
  exists (path_join (mkdtemp_name env (tmp_count s)) (default_filename stream)),
    data.
  unfold download_youtube_video, try_except, bind, mkdtemp.
  rewrite Y, S, D. reflexivity.
Qed.

Lemma download_videos_fetchable env urls : forall s,
  Forall (fetchable env) urls ->
  exists videos s', download_videos env urls s = (Ok videos, s').
Proof.
  induction urls as [|url urls IH]; intros s H.
  - by exists [], s.
  - apply Forall_cons in H as [Hu H].
    destruct (download_youtube_video_fetchable env url s Hu) as (path & data & D).
    simpl. rewrite (bind_Ok_eq _ _ _ _ _ D).
    unfold bind at 1, extend_temp_paths, modify.
    destruct (IH (registered [path; mkdtemp_name env (tmp_count s)]
                    (after_download (mkdtemp_name env (tmp_count s)) path data s))
                 H) as (videos & s' & R).
    rewrite (bind_Ok_eq _ _ _ _ _ R). by eexists _, _.
Qed.

(** *** The [try] block, step by step *)

Lemma process_video_body_eq env s story urls audio result :
  gtts_save env story = Done audio ->
  whisper_segments env (Some (File audio)) = Ok result ->
  process_video_body env story urls s
  = (video_segments <- download_videos env urls ;;
     compose env s result video_segments) (before_downloads env s audio).
Proof.
  intros G W. unfold process_video_body, bind at 1 2 3 4 5 6 7 8 9.
  unfold mkdtemp, extend_temp_paths, print, modify. rewrite G. simpl.
  rewrite lookup_insert_eq, W. reflexivity.
Qed.

Lemma process_video_body_Ok_inv env s story urls r s' :
  process_video_body env story urls s = (Ok r, s') ->
  exists audio result video_segments s4,
    gtts_save env story = Done audio
    /\ whisper_segments env (Some (File audio)) = Ok result
    /\ download_videos env urls (before_downloads env s audio)
       = (Ok video_segments, s4)
    /\ compose env s result video_segments s4 = (Ok r, s').
Proof.
  intros H.
  destruct (gtts_save env story) as [audio|partial msg] eqn:G.
  - destruct (whisper_segments env (Some (File audio))) as [result|e] eqn:W.
    + rewrite (process_video_body_eq _ _ _ _ _ _ G W) in H.
      apply bind_Ok_inv in H as (videos & s4 & D & C).
      by exists audio, result, videos, s4.
    + revert H. unfold process_video_body, bind at 1 2 3 4 5 6 7 8 9.
      unfold mkdtemp, extend_temp_paths, print, modify. rewrite G. simpl.
      rewrite lookup_insert_eq, W. discriminate.
  - revert H. unfold process_video_body, bind at 1 2 3 4.
    unfold mkdtemp, extend_temp_paths, print, modify. rewrite G.
    destruct partial; discriminate.
Qed.

Lemma compose_one env s result video s4 :
  compose env s result [video] s4
  = (subprocess_run env
       (mux_argv video (voice_path_of env s)
                 (create_subtitle_filter (str_float env) result)
                 (output_path_of env s)) ;;
     temp_paths <- gets temp_paths ;;
     ret (output_path_of env s, temp_paths))
      (logged "🎬 Creating final video..." s4).
Proof. reflexivity. Qed.

Lemma compose_many env s result videos s4 data :
  1 < length videos ->
  ffmpeg env (fs (before_concat env s videos s4))
         (concat_argv (concat_list_of env s) (combined_video_of env s))
  = Done data ->
  compose env s result videos s4
  = (subprocess_run env
       (mux_argv (combined_video_of env s) (voice_path_of env s)
                 (create_subtitle_filter (str_float env) result)
                 (output_path_of env s)) ;;
     temp_paths <- gets temp_paths ;;
     ret (output_path_of env s, temp_paths))
      (after_concat env s videos data s4).
Proof.
  intros Hn F. apply Nat.ltb_lt in Hn.
  unfold compose. rewrite Hn.
  unfold bind at 1 2 3 4 5, print, write_file, modify.
  unfold before_concat in F.
  rewrite (subprocess_run_Done _ _ _ _ F). reflexivity.
Qed.

(** What a run of steps 4 and 5 that returns has done. *)
Lemma compose_Ok_inv env s result videos s4 r s' :
  compose env s result videos s4 = (Ok r, s') ->
  exists input_video s5 data,
    r = (output_path_of env s, temp_paths s5)
    /\ s' = after_run (mux_argv input_video (voice_path_of env s)
                         (create_subtitle_filter (str_float env) result)
                         (output_path_of env s)) data s5
    /\ ((videos = [input_video]
         /\ s5 = logged "🎬 Creating final video..." s4)
        \/ (1 < length videos
            /\ input_video = combined_video_of env s
            /\ exists data1, s5 = after_concat env s videos data1 s4)).
Proof.
  intros H. destruct videos as [|video [|video2 videos]].
  - discriminate.
  - rewrite compose_one in H.
    apply bind_Ok_inv in H as ([] & s6 & R & [= <- <-]).
    apply subprocess_run_Ok_inv in R as (data & _ & ->).
    exists video, (logged "🎬 Creating final video..." s4), data.
    split; [done|]. split; [done|]. by left.
  - destruct (ffmpeg env (fs (before_concat env s (video :: video2 :: videos) s4))
               (concat_argv (concat_list_of env s) (combined_video_of env s)))
      as [data1|partial msg] eqn:F.
    + rewrite (compose_many _ _ _ _ _ data1) in H; [|simpl; lia|done].
      apply bind_Ok_inv in H as ([] & s6 & R & [= <- <-]).
      apply subprocess_run_Ok_inv in R as (data & _ & ->).
      exists (combined_video_of env s),
        (after_concat env s (video :: video2 :: videos) data1 s4), data.
      split; [done|]. split; [done|]. right.
      split; [simpl; lia|]. split; [done|]. by exists data1.
    + revert H. unfold compose. simpl length.
      change (1 <? S (S (length videos))) with true. cbv iota.
      unfold bind at 1 2 3 4, print, write_file, modify.
      unfold before_concat in F.
      unfold subprocess_run, bind at 1 2, modify, gets.
      change (fs (called ?a ?t)) with (fs t). rewrite F.
      destruct partial; discriminate.
Qed.

(** *** A job that returns *)


(** What is known of a call of [process_video] that returned: the narration
    and the transcript were made, [videos] are the downloads of the URLs in
    their order, and the last command is the mux of [input_video], which is
    the only download or the file ffmpeg made of all of them. *)
Lemma process_video_Ok_shape env os story urls s out tps s' :
  process_video env os story urls s = (Ok (out, tps), s') ->
  exists audio result videos s4 input_video s5 data,
    gtts_save env story = Done audio
    /\ whisper_segments env (Some (File audio)) = Ok result
    /\ map Some videos
       = imap (fun i url => downloaded_path env (S (tmp_count s) + i) url) urls
    /\ calls s4 = calls s
    /\ out = output_path_of env s /\ tps = temp_paths s5
    /\ s' = after_run (mux_argv input_video (voice_path_of env s)
                          (create_subtitle_filter (str_float env) result) out)
                      data s5
    /\ ((videos = [input_video]
         /\ s5 = logged "🎬 Creating final video..." s4)
        \/ (1 < length videos
            /\ input_video = combined_video_of env s
            /\ exists data1, s5 = after_concat env s videos data1 s4)).
Proof.
  intros H. pose proof (process_video_cases env os story urls s) as C.
  destruct (process_video_body env story urls _) as [[r|e] s1] eqn:B.
  - rewrite C in H. injection H as -> ->.
    apply process_video_body_Ok_inv in B
      as (audio & result & videos & s4 & G & W & D & K).
    apply download_videos_Ok_inv in D as (Hmap & Hcalls & _).
    apply compose_Ok_inv in K as (input_video & s5 & data & [= -> ->] & -> & Hc).
    exists audio, result, videos, s4, input_video, s5, data.
    repeat split; done.
  - destruct C as (s2 & _ & C). rewrite C in H. discriminate.
Qed.

Lemma imap_Some_lookup {A} (f : nat -> A -> option string) (xs : list A)
    (videos : list string) :
  map Some videos = imap f xs ->
  length videos = length xs
  /\ forall i x, xs !! i = Some x ->
       exists video, videos !! i = Some video /\ f i x = Some video.
Proof.
  intros H. split.
  - rewrite <- (length_map Some videos), H. apply length_imap.
  - intros i x Hx.
    assert (E : imap f xs !! i = Some (f i x))
      by (rewrite list_lookup_imap, Hx; done).
    rewrite <- H in E. change (map Some videos) with (Some <$> videos) in E.
    rewrite list_lookup_fmap in E.
    destruct (videos !! i) as [video|]; [|done].
    exists video. split; [done|]. by injection E as <-.
Qed.



(** C8: in a job that returns, the last command run is the mux, with its
    fixed arguments: the video is the first input and the narration the
    second, [-map 0:v] and [-map 1:a] take the picture from the first and
    the sound from the second, the encoders are libx264 (preset fast, crf
    23) and aac, and [-shortest] is there. *)
Theorem mux_follows_contract env os story urls s out tps s' :
  process_video env os story urls s = (Ok (out, tps), s') ->
  exists input_video subtitle_filter audio,
    last (calls s')
    = Some ["ffmpeg"; "-y"; "-i"; input_video; "-i"; voice_path_of env s;
            "-vf"; subtitle_filter; "-map"; "0:v"; "-map"; "1:a";
            "-c:v"; "libx264"; "-preset"; "fast"; "-crf"; "23";
            "-c:a"; "aac"; "-shortest"; out]
    /\ out = output_path_of env s
    /\ gtts_save env story = Done audio
    /\ ((exists url, urls = [url]
           /\ downloaded_path env (S (tmp_count s)) url = Some input_video)
        \/ (1 < length urls /\ input_video = combined_video_of env s)).
Proof.
  intros H.
  apply process_video_Ok_shape in H
    as (audio & result & videos & s4 & input_video & s5 & data
        & G & _ & Hmap & _ & -> & -> & -> & Hc).
  exists input_video, (create_subtitle_filter (str_float env) result), audio.
  split; [apply last_snoc|]. split; [done|]. split; [done|].
  apply imap_Some_lookup in Hmap as [Hlen Hmap].
  destruct Hc as [[-> _]|(Hn & -> & _)].
  - left. destruct urls as [|url [|url2 urls]]; try discriminate.
    exists url. split; [done|].
    destruct (Hmap 0 url eq_refl) as (video & [= <-] & E).
    by rewrite Nat.add_0_r in E.
  - right. split; [lia | done].
Qed.

(** *** A job whose collaborators all work *)

Lemma compose_returns env s result videos s4 :
  videos <> [] ->
  (forall files argv, exists data, ffmpeg env files argv = Done data) ->
  exists tps s', compose env s result videos s4
                 = (Ok (output_path_of env s, tps), s').
Proof.
  intros Hv Hff. destruct videos as [|video [|video2 videos]]; [done|..].
  - rewrite compose_one.
    edestruct Hff as [data F].
    rewrite (bind_Ok_eq _ _ _ _ _ (subprocess_run_Done _ _ _ _ F)).
    by eexists _, _.
  - edestruct Hff as [data1 F1].
    rewrite (compose_many _ _ _ _ _ data1); [|simpl; lia|exact F1].
    edestruct Hff as [data F].
    rewrite (bind_Ok_eq _ _ _ _ _ (subprocess_run_Done _ _ _ _ F)).
    by eexists _, _.
Qed.

Lemma process_video_returns env os story urls s audio result :
  gtts_save env story = Done audio ->
  whisper_segments env (Some (File audio)) = Ok result ->
  urls <> [] ->
  Forall (fetchable env) urls ->
  (forall files argv, exists data, ffmpeg env files argv = Done data) ->
  exists tps s', process_video env os story urls s
                 = (Ok (output_path_of env s, tps), s').
Proof.
  intros G W Hu Hf Hff.
  pose proof (process_video_cases env os story urls s) as C.
  rewrite (process_video_body_eq _ _ _ _ _ _ G W) in C.
  destruct (download_videos_fetchable env urls
              (before_downloads env (start_frame s) audio) Hf)
    as (videos & s4 & D).
  rewrite (bind_Ok_eq _ _ _ _ _ D) in C.
  assert (Hv : videos <> []).
  { apply download_videos_Ok_inv in D as (Hmap & _).
    apply imap_Some_lookup in Hmap as [Hlen _].
    destruct videos; [|done]. destruct urls; [done|discriminate]. }
  destruct (compose_returns env (start_frame s) result videos s4 Hv Hff)
    as (tps & s' & K).
  rewrite K in C. by exists tps, s'.
Qed.

Lemma subprocess_run_Failed env argv s partial msg :
  ffmpeg env (fs s) argv = Failed partial msg ->
  exists s1, subprocess_run env argv s = (Raise msg, s1)
    /\ calls s1 = calls s ++ [argv].
Proof.
  intros E. unfold subprocess_run, bind, modify, gets. simpl. rewrite E.
  destruct partial as [part|]; simpl; eexists; split; reflexivity.
Qed.

Lemma wordless_filter str_float (result : list segment) :
  flat_map (fun segment =>
              match words segment with Some ws => ws | None => [] end) result
  = [] ->
  create_subtitle_filter str_float result = "".
Proof.
  intros Hw. unfold create_subtitle_filter.
  replace (filters str_float result) with (@nil string); [reflexivity|].
  induction result as [|segment result IH]; simpl in *; [reflexivity|].
  apply app_eq_nil in Hw as [H1 H2]. rewrite <- (IH H2), app_nil_r.
  unfold segment_words. destruct (words segment); simpl; by rewrite ?H1.
Qed.

(** The mux decides the job once the narration, the transcript and the
    video input are there. *)
Lemma mux_decides env os story urls s e0 s5 input_video
    (subtitle_filter : string) :
  (forall r s1,
     (subprocess_run env
        (mux_argv input_video (voice_path_of env s) subtitle_filter
                  (output_path_of env s)) ;;
      temp_paths <- gets temp_paths ;;
      ret (output_path_of env s, temp_paths)) s5 = (r, s1) ->
     process_video_body env story urls (start_frame e0) = (r, s1)) ->
  match ffmpeg env (fs s5)
          (mux_argv input_video (voice_path_of env s) subtitle_filter
                    (output_path_of env s)) with
  | Done _ =>
      exists tps s', process_video env os story urls e0
                     = (Ok (output_path_of env s, tps), s')
        /\ last (calls s')
           = Some (mux_argv input_video (voice_path_of env s) subtitle_filter
                            (output_path_of env s))
  | Failed _ msg =>
      exists s', process_video env os story urls e0
                 = (Raise ("Video processing failed: " +:+ msg), s')
        /\ last (calls s')
           = Some (mux_argv input_video (voice_path_of env s) subtitle_filter
                            (output_path_of env s))
  end.
Proof.
  intros Hbody.
  pose proof (process_video_cases env os story urls e0) as C.
  destruct (ffmpeg env (fs s5) _) as [data|partial msg] eqn:F.
  - rewrite (Hbody _ _ (bind_Ok_eq _ _ _ _ _ (subprocess_run_Done _ _ _ _ F)))
      in C.
    eexists _, _. split; [exact C|]. apply last_snoc.
  - destruct (subprocess_run_Failed _ _ _ _ _ F) as (s1 & R & Hcalls).
    assert (B : process_video_body env story urls (start_frame e0)
                = (Raise msg, s1)).
    { apply Hbody. unfold bind at 1. by rewrite R. }
    rewrite B in C. destruct C as (s2 & K & P).
    exists s2. split; [exact P|].
    rewrite (clean_temp_files_calls _ _ _ _ K), Hcalls. apply last_snoc.
Qed.

(** C7 fails as it is stated: with an ffmpeg that refuses an empty filter
    graph, the job whose transcript has no word raises at the mux, while
    the same job with a transcript of two words returns. *)
Lemma empty_transcript_fails_strict_mux :
  silent_strict_run.1
  = Raise "Video processing failed: ffmpeg returned non-zero exit status 1."
  /\ spoken_strict_run.1
     = Ok ("/tmp/tmp0/final_output.mp4",
           ["/tmp/tmp0"; "/tmp/tmp0/narration.mp3";
            "/tmp/tmp1/urlA.mp4"; "/tmp/tmp1"]).
Proof. split; vm_compute; reflexivity. Qed.

(** C7, as the code has it: a transcript without a word gives the empty
    filter, and the job goes on to the mux, run with [-vf] and the empty
    text; the job returns the output path when that command works, and
    raises with the error of that command when it does not. *)
Theorem empty_transcript_reaches_mux env os story urls s audio result :
  gtts_save env story = Done audio ->
  whisper_segments env (Some (File audio)) = Ok result ->
  flat_map (fun segment =>
              match words segment with Some ws => ws | None => [] end) result
  = [] ->
  urls <> [] ->
  Forall (fetchable env) urls ->
  (forall files concat_list combined_video, exists data,
     ffmpeg env files
            ["ffmpeg"; "-f"; "concat"; "-safe"; "0";
             "-i"; concat_list; "-c"; "copy"; combined_video]
     = Done data) ->
  let work_dir := mkdtemp_name env (tmp_count s) in
  let output_path := work_dir +:+ "/final_output.mp4" in
  create_subtitle_filter (str_float env) result = ""
  /\ exists input_video files,
       let argv :=
         ["ffmpeg"; "-y"; "-i"; input_video;
          "-i"; work_dir +:+ "/narration.mp3"; "-vf"; "";
          "-map"; "0:v"; "-map"; "1:a"; "-c:v"; "libx264";
          "-preset"; "fast"; "-crf"; "23"; "-c:a"; "aac"; "-shortest";
          output_path] in
       match ffmpeg env files argv with
       | Done _ =>
           exists tps s',
             process_video env os story urls s = (Ok (output_path, tps), s')
             /\ last (calls s') = Some argv
       | Failed _ msg =>
           exists s',
             process_video env os story urls s
             = (Raise ("Video processing failed: " +:+ msg), s')
             /\ last (calls s') = Some argv
       end.
Proof.
  intros G W Hw Hu Hf Hff work_dir output_path.
  pose proof (wordless_filter (str_float env) result Hw) as Hfil.
  split; [exact Hfil|].
  destruct (download_videos_fetchable env urls
              (before_downloads env (start_frame s) audio) Hf)
    as (videos & s4 & D).
  assert (Hv : videos <> []).
  { apply download_videos_Ok_inv in D as (Hmap & _).
    apply imap_Some_lookup in Hmap as [Hlen _].
    destruct videos; [|done]. destruct urls; [done|discriminate]. }
  destruct videos as [|video [|video2 videos]]; [done|..].
  - exists video, (fs (logged "🎬 Creating final video..." s4)).
    pose proof (mux_decides env os story urls (start_frame s) s
                  (logged "🎬 Creating final video..." s4) video "") as M.
    apply M. intros r s1 R.
    rewrite (process_video_body_eq _ _ _ _ _ _ G W).
    rewrite (bind_Ok_eq _ _ _ _ _ D), compose_one, Hfil. exact R.
  - destruct (Hff (fs (before_concat env (start_frame s)
                         (video :: video2 :: videos) s4))
                  (concat_list_of env (start_frame s))
                  (combined_video_of env (start_frame s))) as [data1 F1].
    exists (combined_video_of env (start_frame s)),
      (fs (after_concat env (start_frame s) (video :: video2 :: videos)
                        data1 s4)).
    pose proof (mux_decides env os story urls (start_frame s) s
                  (after_concat env (start_frame s)
                     (video :: video2 :: videos) data1 s4)
                  (combined_video_of env (start_frame s)) "") as M.
    apply M. intros r s1 R.
    rewrite (process_video_body_eq _ _ _ _ _ _ G W).
    rewrite (bind_Ok_eq _ _ _ _ _ D).
    rewrite (compose_many _ _ _ _ _ data1); [|simpl; lia|exact F1].
    rewrite Hfil. exact R.
Qed.

(** *** The reported outcome and the removals *)

Lemma process_video_result env os os' story urls s :
  exists r s1 s1',
    process_video env os story urls s = (r, s1)
    /\ process_video env os' story urls s = (r, s1')
    /\ (forall a, r = Ok a -> s1 = s1').
Proof.
  pose proof (process_video_cases env os story urls s) as C.
  pose proof (process_video_cases env os' story urls s) as C'.
  destruct (process_video_body env story urls _) as [[r|e] s1].
  - exists (Ok r), s1, s1. done.
  - destruct C as (s2 & _ & C), C' as (s2' & _ & C').
    exists (Raise ("Video processing failed: " +:+ e)), s2, s2'. done.
Qed.

Lemma generate_video_response env os os' data s :
  (generate_video env os data s).1 = (generate_video env os' data s).1.
Proof.
  rewrite !generate_video_unfold.
  destruct (early_answer data); [reflexivity|]. unfold deliver, try_except.
  destruct (process_video_result env os os' (story_of data) (urls_of data) s)
    as (r & s1 & s1' & P & P' & Hs).
  unfold bind at 1 3. rewrite P, P'. destruct r as [[out tps]|e]; [|reflexivity].
  rewrite <- (Hs _ eq_refl). unfold try_finally, bind, ret.
  destruct (clean_temp_files_returns os tps s1) as [s2 E].
  destruct (clean_temp_files_returns os' tps s1) as [s2' E'].
  destruct (send_file env (fs s1) out); simpl; by rewrite E, E'.
Qed.

(** C9: whatever removal the operating system refuses, [clean_temp_files]
    returns; each path of the list is gone afterwards or its refusal was
    printed, so the pass went on to the end; and neither what
    [process_video] returns or raises nor the response of the endpoint
    depends on the refusals. *)
Theorem cleanup_errors_are_swallowed env os os' paths story urls data s :
  (exists s' lines,
     clean_temp_files os paths s = (Ok tt, s')
     /\ stdout s' = stdout s ++ lines
     /\ Forall (fun path =>
                  fs s' !! path = None
                  \/ exists msg, refused os path msg
                       /\ error_line path msg ∈ lines) paths)
  /\ (process_video env os story urls s).1
     = (process_video env os' story urls s).1
  /\ (generate_video env os data s).1 = (generate_video env os' data s).1.
Proof.
  split; [|split].
  - destruct (clean_temp_files_spec os paths s)
      as (s' & lines & E & _ & _ & Hout & _ & Hall).
    exists s', lines. split; [done|]. split; [done|]. by apply Forall_forall.
  - destruct (process_video_result env os os' story urls s)
      as (r & s1 & s1' & -> & -> & _). reflexivity.
  - apply generate_video_response.
Qed.

(** *** A download that breaks *)

(** C1, at one URL whose download breaks after its directory was made:
    [process_video] raises, and the directory, which was not on disk
    before and is not in [temp_paths], is still there. *)
Theorem failed_download_leaves_its_directory :
  broken_run.1
  = Raise "Video processing failed: YouTube download failed: connection reset"
  /\ fs boot !! "/tmp/tmp1" = None
  /\ fs broken_run.2 !! "/tmp/tmp1" = Some Dir
  /\ temp_paths broken_run.2 = ["/tmp/tmp0"; "/tmp/tmp0/narration.mp3"]
  /\ fs broken_run.2 !! "/tmp/tmp0" = None.
Proof. repeat split; vm_compute; reflexivity. Qed.

(** With two URLs of which the second breaks, the file and the directory
    of the first are removed, and the directory of the second stays. *)
Example second_download_breaks_run :
  half_broken_run.1
  = Raise "Video processing failed: YouTube download failed: connection reset"
  /\ fs half_broken_run.2 !! "/tmp/tmp1/urlA.mp4" = None
  /\ fs half_broken_run.2 !! "/tmp/tmp1" = None
  /\ fs half_broken_run.2 !! "/tmp/tmp2" = Some Dir.
Proof. repeat split; vm_compute; reflexivity. Qed.

End AppFacts.

(** ** The theorems at concrete inputs *)

Module Witnesses.
Import Caption Pytube Effects Python App Terms Scenarios.
Import CaptionFacts CleanupFacts AppFacts.

Lemma create_subtitle_filter_one_per_word_witness :
  create_subtitle_filter (fun _ => "0.0") odd_words
  = "drawtext=font='Arial':text='':fontsize=60:fontcolor=white:bordercolor=black:borderw=2:x=(w-text_w)/2:y=(h-text_h)/2:enable='between(t,0.0,0.0)',drawtext=font='Arial':text='Hello':fontsize=60:fontcolor=white:bordercolor=black:borderw=2:x=(w-text_w)/2:y=(h-text_h)/2:enable='between(t,0.0,0.0)'"
  /\ "drawtext=font='Arial':text='" +:+ clean_text "¿¡"
     +:+ "':fontsize=60:fontcolor=white:bordercolor=black:borderw=2:x=(w-text_w)/2:y=(h-text_h)/2:enable='between(t,"
     +:+ "0.0" +:+ "," +:+ "0.0" +:+ ")'"
     = "drawtext=font='Arial':text='':fontsize=60:fontcolor=white:bordercolor=black:borderw=2:x=(w-text_w)/2:y=(h-text_h)/2:enable='between(t,"
       +:+ "0.0" +:+ "," +:+ "0.0" +:+ ")'".
Proof.
  destruct (create_subtitle_filter_one_per_word (fun _ => "0.0") odd_words)
    as (E & _ & Hw).
  split.
  - rewrite E. reflexivity.
  - apply (Hw (WordInfo "¿¡" 0%float 0.5%float)). reflexivity.
Defined.

Lemma validation_answers_before_work_witness :
  generate_video (fair_env hello_world) no_errors eleven_links boot
  = (Ok (JsonError "Maximum 10 videos allowed" 400), boot).
Proof.
  destruct (validation_answers_before_work (fair_env hello_world) no_errors
              eleven_links boot) as (_ & _ & H).
  destruct (H _ _ _ eq_refl eq_refl eq_refl) as (_ & Hmax & _).
  apply (Hmax eq_refl eq_refl 11); [reflexivity | lia].
Defined.


Lemma mux_follows_contract_witness :
  exists input_video subtitle_filter audio,
    last (calls one_url_run.2)
    = Some ["ffmpeg"; "-y"; "-i"; input_video; "-i"; "/tmp/tmp0/narration.mp3";
            "-vf"; subtitle_filter; "-map"; "0:v"; "-map"; "1:a";
            "-c:v"; "libx264"; "-preset"; "fast"; "-crf"; "23";
            "-c:a"; "aac"; "-shortest"; "/tmp/tmp0/final_output.mp4"]
    /\ "/tmp/tmp0/final_output.mp4" = "/tmp/tmp0/final_output.mp4"
    /\ Done "narration" = Done audio
    /\ ((exists url, [JString "urlA"] = [url]
           /\ downloaded_path (fair_env hello_world) 1 url = Some input_video)
        \/ (1 < 1 /\ input_video = "/tmp/tmp0/combined.mp4")).
Proof.
  apply (mux_follows_contract (fair_env hello_world) no_errors
           (JString "Hello world") [JString "urlA"] boot
           "/tmp/tmp0/final_output.mp4"
           ["/tmp/tmp0"; "/tmp/tmp0/narration.mp3"; "/tmp/tmp1/urlA.mp4";
            "/tmp/tmp1"]
           one_url_run.2).
  vm_compute. reflexivity.
Defined.

Lemma empty_transcript_reaches_mux_witness :
  create_subtitle_filter (fun _ => "0.0") [Segment None; Segment (Some [])]
  = ""
  /\ exists input_video files,
       let argv :=
         ["ffmpeg"; "-y"; "-i"; input_video;
          "-i"; "/tmp/tmp0/narration.mp3"; "-vf"; "";
          "-map"; "0:v"; "-map"; "1:a"; "-c:v"; "libx264";
          "-preset"; "fast"; "-crf"; "23"; "-c:a"; "aac"; "-shortest";
          "/tmp/tmp0/final_output.mp4"] in
       match ffmpeg (strict_ffmpeg_env [Segment None; Segment (Some [])])
                    files argv with
       | Done _ =>
           exists tps s',
             silent_strict_run
             = (Ok ("/tmp/tmp0/final_output.mp4", tps), s')
             /\ last (calls s') = Some argv
       | Failed _ msg =>
           exists s',
             silent_strict_run
             = (Raise ("Video processing failed: " +:+ msg), s')
             /\ last (calls s') = Some argv
       end.
Proof.
  apply (empty_transcript_reaches_mux
           (strict_ffmpeg_env [Segment None; Segment (Some [])]) no_errors
           (JString "...") [JString "urlA"] boot "narration"
           [Segment None; Segment (Some [])]).
  - reflexivity.
  - reflexivity.
  - reflexivity.
  - discriminate.
  - constructor; [|constructor].
    exists [stream_of 720 "urlA.mp4"], (stream_of 720 "urlA.mp4"), "urlA.mp4".
    repeat split.
  - intros files concat_list combined_video. exists "video". simpl.
    rewrite andb_false_r. reflexivity.
Defined.

Lemma clean_temp_files_idempotent_witness :
  exists s1 s2,
    clean_temp_files no_errors job_paths job_files = (Ok tt, s1)
    /\ clean_temp_files no_errors job_paths s1 = (Ok tt, s2)
    /\ Forall (fun path => fs s1 !! path = None) job_paths
    /\ stdout s1 = [] /\ s2 = s1.
Proof.
  destruct (clean_temp_files_idempotent no_errors job_paths job_files)
    as (s1 & s2 & E1 & E2 & _ & _ & Hquiet).
  exists s1, s2. split; [exact E1|]. split; [exact E2|].
  destruct Hquiet as (Hgone & Hout & Hsame).
  - apply Forall_forall. intros path _ msg [H|[gone H]]; discriminate.
  - split; [exact Hgone|]. split; [exact Hout | exact Hsame].
Defined.

End Witnesses.

(** ** More about the caption compiler *)

Module CaptionMore.
Import Caption Ledger CaptionFacts.

Lemma all_chars_impl (p q : ascii -> bool) (x : string) :
  (forall c, p c = true -> q c = true) ->
  all_chars p x = true -> all_chars q x = true.
Proof.
  intros Hpq. induction x as [|c x IH]; simpl; [done|].
  intros [Hc Hx]%andb_prop. by rewrite (Hpq c Hc), (IH Hx).
Qed.

Lemma allowed_keeps_quoting (c : ascii) :
  allowed c = true -> negb (breaks_quoting c) = true.
Proof.
  intros Hc. apply negb_true_iff. unfold breaks_quoting.
  destruct (Ascii.eqb_spec c "'") as [->|_]; [done|].
  destruct (Ascii.eqb_spec c "\") as [->|_]; [done|].
  destruct (Ascii.eqb_spec c ":") as [->|_]; [done|].
  destruct (Ascii.eqb_spec c "%") as [->|_]; done.
Qed.

(** X1: the text that [clean_text] returns has no quote, backslash, colon
    or percent sign, so it cannot end the quoted [text] option of a
    drawtext filter. *)
Theorem clean_text_keeps_quoting (x : string) :
  all_chars (fun c => negb (breaks_quoting c)) (clean_text x) = true.
Proof.
  eapply all_chars_impl; [apply allowed_keeps_quoting|].
  apply clean_text_allowed.
Qed.

(** X2: [clean_text] leaves a text as it is exactly when every character
    of the text is in the class. *)
Theorem clean_text_fixed_iff (x : string) :
  clean_text x = x <-> all_chars allowed x = true.
Proof.
  split; [|apply clean_text_fixed].
  intros E. rewrite <- E. apply clean_text_allowed.
Qed.

Lemma clean_text_app (x y : string) :
  clean_text (x +:+ y) = clean_text x +:+ clean_text y.
Proof.
  induction x as [|c x IH]; simpl; [reflexivity|].
  destruct (allowed c); simpl; by rewrite IH.
Qed.

Lemma clean_text_length (x : string) :
  String.length (clean_text x) <= String.length x.
Proof.
  induction x as [|c x IH]; simpl; [lia|].
  destruct (allowed c); simpl; lia.
Qed.

(** X3: cleaning commutes with concatenation, never makes a text longer,
    and keeps the length only of a text it leaves unchanged. *)
Theorem clean_text_app_length (x y : string) :
  clean_text (x +:+ y) = clean_text x +:+ clean_text y
  /\ String.length (clean_text x) <= String.length x
  /\ (String.length (clean_text x) = String.length x -> clean_text x = x).
Proof.
  split; [apply clean_text_app|]. split; [apply clean_text_length|].
  induction x as [|c x IH]; simpl; [done|].
  destruct (allowed c); simpl.
  - intros [= H]. by rewrite (IH H).
  - pose proof (clean_text_length x). lia.
Qed.

Lemma filters_app str_float (a b : list segment) :
  filters str_float (a ++ b) = filters str_float a ++ filters str_float b.
Proof.
  induction a as [|s a IH]; simpl; [reflexivity|].
  by rewrite IH, app_assoc.
Qed.

(** X4: the filters of two transcripts put end to end are the filters of
    the first followed by those of the second, and a segment without words
    (no ["words"] key, or an empty list) can be left out of a transcript. *)
Theorem filters_app_wordless str_float (a b : list segment) :
  filters str_float (a ++ b) = filters str_float a ++ filters str_float b
  /\ filters str_float (List.filter has_words a) = filters str_float a.
Proof.
  split; [apply filters_app|].
  induction a as [|s a IH]; simpl; [reflexivity|].
  destruct (has_words s) eqn:H; simpl; [by rewrite IH|].
  unfold has_words in H. destruct (segment_words s); [exact IH | discriminate].
Qed.

End CaptionMore.

(** ** More about the choice of a stream *)

Module StreamChoice.
Import Pytube Terms Ledger PytubeFacts.

Lemma filter_720_spec (streams : list Stream) :
  filter_progressive_mp4 (Some 720) streams
  = List.filter progressive_mp4_720 streams.
Proof. reflexivity. Qed.

Lemma filter_none_of {A} (p : A -> bool) (l : list A) :
  Forall (fun t => p t = false) l -> List.filter p l = [].
Proof.
  induction 1 as [|t l Ht _ IH]; simpl; [done|]. by rewrite Ht.
Qed.

(** X5: when a progressive mp4 stream at 720p is offered, the stream
    chosen is the first such stream of the listing. *)
Theorem select_stream_first_720 (before after : list Stream) (stream : Stream) :
  progressive_mp4_720 stream = true ->
  Forall (fun t => progressive_mp4_720 t = false) before ->
  select_stream (before ++ stream :: after) = Some stream.
Proof.
  intros Hs Hb. unfold select_stream, first.
  rewrite filter_720_spec, List.filter_app, (filter_none_of _ _ Hb). simpl.
  by rewrite Hs.
Qed.

Lemma progressive_mp4_filter (streams : list Stream) (t : Stream) :
  t ∈ filter_progressive_mp4 None streams
  <-> t ∈ streams /\ progressive_mp4 t = true.
Proof.
  unfold filter_progressive_mp4, progressive_mp4.
  rewrite !list_elem_of_In, filter_In, andb_true_r. reflexivity.
Qed.

(** X6: when no progressive mp4 stream at 720p is offered, the stream
    chosen is a progressive mp4 stream of the listing, and no progressive
    mp4 stream of the listing has a higher resolution, whether below 720p
    or above. *)
Theorem select_stream_otherwise_highest (streams : list Stream) (stream : Stream) :
  Forall (fun t => progressive_mp4_720 t = false) streams ->
  select_stream streams = Some stream ->
  stream ∈ streams /\ progressive_mp4 stream = true
  /\ Forall (fun t => progressive_mp4 t = true ->
               forall r, resolution t = Some r -> r <= res_key stream) streams.
Proof.
  intros H720 Hsel.
  destruct (select_stream_fallback_highest streams stream) as [Hin Hmax].
  - rewrite filter_720_spec. by apply filter_none_of.
  - exact Hsel.
  - apply progressive_mp4_filter in Hin as [Hin Hp].
    split; [done|]. split; [done|]. apply Forall_forall.
    intros t Ht Hpt r Hr.
    assert (Hk : res_key t <= res_key stream).
    { apply Hmax; [by apply progressive_mp4_filter | by rewrite Hr]. }
    unfold res_key in Hk at 1. by rewrite Hr in Hk.
Qed.

Lemma sorted_by_resolution_nil (l : list Stream) :
  sorted_by_resolution l = [] -> l = [].
Proof.
  destruct l as [|t l]; [done|]. intros E.
  assert (H : t ∈ sorted_by_resolution (t :: l))
    by (apply sorted_by_resolution_elem; by left).
  rewrite E in H. by apply elem_of_nil in H.
Qed.

Lemma suitable_filter (streams : list Stream) :
  List.filter (fun s => bool_decide (is_Some (resolution s)))
              (filter_progressive_mp4 None streams)
  = List.filter suitable streams.
Proof.
  induction streams as [|t streams IH]; simpl; [reflexivity|].
  unfold suitable, progressive_mp4 at 1. rewrite andb_true_r.
  destruct (is_progressive t && String.eqb (subtype t) "mp4"); simpl; [|done].
  destruct (bool_decide _); by rewrite IH.
Qed.

Lemma select_stream_unsuitable (streams : list Stream) :
  Forall (fun t => suitable t = false) streams -> select_stream streams = None.
Proof.
  intros H. unfold select_stream, first, desc, order_by_resolution.
  rewrite filter_720_spec, suitable_filter, (filter_none_of suitable _ H).
  rewrite filter_none_of; [done|].
  eapply Forall_impl; [exact H|]. intros t Ht. unfold progressive_mp4_720.
  unfold suitable in Ht. destruct (progressive_mp4 t); [|done]. simpl in *.
  unfold res_is. destruct (resolution t); [|done].
  by rewrite bool_decide_eq_false in Ht; destruct Ht.
Qed.

(** X7: no stream is chosen exactly when the listing has no progressive mp4
    stream with a resolution. *)
Theorem select_stream_none_iff (streams : list Stream) :
  select_stream streams = None
  <-> Forall (fun t => suitable t = false) streams.
Proof.
  split; [|apply select_stream_unsuitable].
  unfold select_stream, first, desc, order_by_resolution.
  destruct (filter_progressive_mp4 (Some 720) streams); [|done]. simpl.
  rewrite head_reverse, suitable_filter. intros Hl.
  assert (E : List.filter suitable streams = []).
  { apply sorted_by_resolution_nil.
    destruct (sorted_by_resolution _) as [|t l] eqn:E; [done|].
    destruct (last_is_Some (t :: l)) as [_ [x Hx]]; [done|].
    by rewrite Hx in Hl. }
  apply Forall_forall. intros t Ht.
  destruct (suitable t) eqn:Hs; [|done].
  assert (Hin : In t (List.filter suitable streams)).
  { apply filter_In. split; [by apply list_elem_of_In | done]. }
  by rewrite E in Hin.
Qed.

End StreamChoice.

(** ** More about the removal of temporary files *)

Module CleanupMore.
Import Effects Terms Ledger CleanupFacts.

Lemma prefix_app_r (x y : string) : String.prefix x (x +:+ y) = true.
Proof.
  induction x as [|c x IH]; simpl; [by destruct y|].
  by destruct (ascii_dec c c).
Qed.

Lemma prefix_trans (x : string) : forall y z,
  String.prefix x y = true -> String.prefix y z = true ->
  String.prefix x z = true.
Proof.
  induction x as [|a x IH]; intros y z Hxy Hyz; [by destruct z|].
  destruct y as [|b y]; [done|]. destruct z as [|c z]; [done|].
  simpl in *. destruct (ascii_dec a b) as [->|]; [|done].
  destruct (ascii_dec b c) as [->|]; [|done]. by eapply IH.
Qed.

Lemma inside_trans (a q k : string) :
  inside a q = true -> inside q k = true -> inside a k = true.
Proof.
  unfold inside. intros Haq Hqk.
  eapply prefix_trans; [exact Haq|].
  eapply prefix_trans; [apply prefix_app_r | exact Hqk].
Qed.

Lemma inside_path_join (dir name : string) :
  inside dir (path_join dir name) = true.
Proof.
  unfold inside, path_join. induction dir as [|c dir IH]; simpl.
  - destruct (ascii_dec "/" "/"); [by destruct name | done].
  - by destruct (ascii_dec c c).
Qed.

Lemma clean_path_lookup os p s s1 k :
  never_refuses os ->
  clean_path os p s = (Ok tt, s1) ->
  fs s1 !! k = (if swept (fs s) p k then None else fs s !! k)
  /\ stdout s1 = stdout s.
Proof.
  intros Hos. unfold swept, is_dir.
  unfold clean_path, try_except, bind, os_path_isdir, os_path_exists, gets,
    shutil_rmtree, os_remove.
  destruct (fs s !! p) as [[|data]|] eqn:E.
  - destruct (rmtree_error os p) as [[msg gone]|] eqn:R.
    { destruct (Hos p msg). right. by exists gone. }
    simpl. intros [= <-]. simpl. split; [|done].
    destruct (String.eqb k p || inside p k) eqn:C.
    + apply map_lookup_filter_None. right. intros x _. simpl.
      rewrite C. discriminate.
    + destruct (fs s !! k) as [x|] eqn:Ek.
      * apply map_lookup_filter_Some. split; [done|]. simpl. by rewrite C.
      * apply map_lookup_filter_None. by left.
  - simpl. rewrite E. simpl.
    destruct (remove_error os p) as [msg|] eqn:R.
    { destruct (Hos p msg). by left. }
    simpl. intros [= <-]. simpl. split; [|done]. rewrite orb_false_r.
    destruct (String.eqb_spec k p) as [->|Hne].
    + apply lookup_delete_eq.
    + by apply lookup_delete_ne.
  - simpl. rewrite E. simpl. intros [= <-]. split; [|done].
    rewrite orb_false_r. destruct (String.eqb_spec k p) as [->|Hne]; done.
Qed.

Lemma swept_step os p s s1 q k :
  never_refuses os ->
  clean_path os p s = (Ok tt, s1) ->
  swept (fs s) p k = false ->
  swept (fs s1) q k = swept (fs s) q k.
Proof.
  intros Hos Hc Hk. unfold swept at 1 2. f_equal.
  destruct (inside q k) eqn:Hqk; [|by rewrite !andb_false_r].
  rewrite !andb_true_r. unfold is_dir.
  destruct (clean_path_lookup os p s s1 q Hos Hc) as [-> _].
  destruct (swept (fs s) p q) eqn:Hq; [|done].
  destruct (fs s !! q) as [[|data]|] eqn:Eq; [|done..].
  exfalso. unfold swept in Hk, Hq.
  apply orb_false_elim in Hk as [_ Hk].
  apply orb_true_iff in Hq as [Hq|Hq].
  - apply String.eqb_eq in Hq as ->.
    unfold is_dir in Hk. by rewrite Eq, Hqk in Hk.
  - apply andb_true_iff in Hq as [Hd Hpq].
    by rewrite Hd, (inside_trans _ _ _ Hpq Hqk) in Hk.
Qed.

Lemma clean_temp_files_lookup os paths : forall s s' k,
  never_refuses os ->
  clean_temp_files os paths s = (Ok tt, s') ->
  fs s' !! k = (if doomed (fs s) paths k then None else fs s !! k)
  /\ stdout s' = stdout s.
Proof.
  induction paths as [|p paths IH]; intros s s' k Hos H.
  - by injection H as <-.
  - rewrite clean_temp_files_cons in H.
    apply bind_Ok_inv in H as ([] & s1 & Hp & Hrest).
    destruct (IH s1 s' k Hos Hrest) as [Hk Hout].
    destruct (clean_path_lookup os p s s1 k Hos Hp) as [Hk1 Hout1].
    split; [|congruence]. rewrite Hk, Hk1.
    change (doomed (fs s) (p :: paths) k)
      with (swept (fs s) p k || doomed (fs s) paths k).
    destruct (swept (fs s) p k) eqn:C; simpl.
    + by destruct (doomed (fs s1) paths k).
    + assert (E : doomed (fs s1) paths k = doomed (fs s) paths k); [|by rewrite E].
      unfold doomed. clear -Hos Hp C.
      induction paths as [|q paths IHq]; simpl; [done|].
      by rewrite IHq, (swept_step os p s s1 q k Hos Hp C).
Qed.

(** X8: for a list of paths in canonical form, when no removal is refused,
    the pass removes the paths of the list and what lies in the directories
    of the list, as they were when the pass started, and nothing else; it
    prints nothing. *)
Theorem clean_temp_files_closed_form os paths s s' :
  forallb canonical paths = true ->
  never_refuses os ->
  clean_temp_files os paths s = (Ok tt, s') ->
  (forall k, fs s' !! k = if doomed (fs s) paths k then None else fs s !! k)
  /\ stdout s' = stdout s.
Proof.
  intros _ Hos H. split.
  - intros k. by apply (clean_temp_files_lookup os paths s s' k).
  - by apply (clean_temp_files_lookup os paths s s' "").
Qed.

Lemma doomed_members files (paths1 paths2 : list string) k :
  (forall p, p ∈ paths1 -> p ∈ paths2) ->
  doomed files paths1 k = true -> doomed files paths2 k = true.
Proof.
  intros Hsub. unfold doomed. rewrite !existsb_exists.
  intros (p & Hp & Hk). exists p. split; [|done].
  apply list_elem_of_In, Hsub. by apply list_elem_of_In.
Qed.

(** X9: when no removal is refused, two lists of paths in canonical form
    with the same members, in any order and with any repetition, leave the
    same state. *)
Theorem clean_temp_files_order_free os (paths1 paths2 : list string) s s1 s2 :
  forallb canonical paths1 = true ->
  forallb canonical paths2 = true ->
  never_refuses os ->
  (forall p, p ∈ paths1 <-> p ∈ paths2) ->
  clean_temp_files os paths1 s = (Ok tt, s1) ->
  clean_temp_files os paths2 s = (Ok tt, s2) ->
  s1 = s2.
Proof.
  intros _ _ Hos Hmem H1 H2.
  assert (Hd : forall k, doomed (fs s) paths1 k = doomed (fs s) paths2 k).
  { intros k. destruct (doomed (fs s) paths1 k) eqn:D1.
    - symmetry. eapply doomed_members; [|exact D1]. intros p. apply Hmem.
    - destruct (doomed (fs s) paths2 k) eqn:D2; [|done].
      rewrite <- D1. eapply doomed_members; [|exact D2]. intros p. apply Hmem. }
  assert (Hfs : fs s1 = fs s2).
  { apply map_eq. intros k.
    destruct (clean_temp_files_lookup os paths1 s s1 k Hos H1) as [-> _].
    destruct (clean_temp_files_lookup os paths2 s s2 k Hos H2) as [-> _].
    by rewrite Hd. }
  destruct (clean_temp_files_lookup os paths1 s s1 "" Hos H1) as [_ Ho1].
  destruct (clean_temp_files_lookup os paths2 s s2 "" Hos H2) as [_ Ho2].
  destruct (clean_temp_files_spec os paths1 s) as (t1 & _ & E1 & _ & F1 & _).
  destruct (clean_temp_files_spec os paths2 s) as (t2 & _ & E2 & _ & F2 & _).
  rewrite H1 in E1. rewrite H2 in E2. injection E1 as <-. injection E2 as <-.
  destruct F1 as (A1 & B1 & C1), F2 as (A2 & B2 & C2).
  destruct s1, s2. simpl in *. congruence.
Qed.

End CleanupMore.

(** ** More about the pipeline *)

Module PipelineMore.
Import Caption Pytube Effects Python App Terms Ledger.
Import CleanupFacts AppFacts CleanupMore StreamChoice.

(** *** Rules for [keeps] *)

Section Keeps.

Context (P : State -> Prop) (broken : Prop).

Lemma keeps_ret {A} (a : A) : keeps P broken (ret a).
Proof. intros s r s' [= <- <-] Hs. by left. Qed.

Lemma keeps_raise {A} (e : string) : keeps P broken (@raise A e).
Proof. intros s r s' [= <- <-] Hs. by left. Qed.

Lemma keeps_pure {A} (x : State -> result A) :
  keeps P broken (fun s => (x s, s)).
Proof. intros s r s' [= <- <-] Hs. by left. Qed.

Lemma keeps_gets {A} (f : State -> A) : keeps P broken (gets f).
Proof. intros s r s' [= <- <-] Hs. by left. Qed.

Lemma keeps_modify (f : State -> State) :
  (forall s, P s -> P (f s)) -> keeps P broken (modify f).
Proof. intros Hf s r s' [= <- <-] Hs. left. by apply Hf. Qed.

Lemma keeps_bind {A B} (m : M A) (k : A -> M B) :
  keeps P broken m -> (forall a, keeps P broken (k a)) ->
  keeps P broken (bind m k).
Proof.
  intros Hm Hk s r s' E Hs. unfold bind in E.
  destruct (m s) as [[a|e] s1] eqn:Em.
  - destruct (Hm s _ _ Em Hs) as [H1|(_ & e & He)]; [|done].
    by apply (Hk a s1).
  - injection E as <- <-.
    destruct (Hm s _ _ Em Hs) as [H1|(Hb & _)]; [by left|].
    right. split; [done|]. by eexists.
Qed.

Lemma keeps_try_raise {A} (m : M A) (f : string -> string) :
  keeps P broken m ->
  keeps P broken (try_except m (fun e => raise (f e))).
Proof.
  intros Hm s r s' E Hs. unfold try_except, raise in E.
  destruct (m s) as [[a|e] s1] eqn:Em; injection E as <- <-.
  - by apply (Hm s _ _ Em).
  - destruct (Hm s _ _ Em Hs) as [H1|(Hb & _)]; [by left|].
    right. split; [done|]. by eexists.
Qed.

Lemma keeps_writes (path : string) (o : outcome) :
  (forall data s, P s -> P (set_fs (insert path (File data)) s)) ->
  keeps P broken (writes path o).
Proof.
  intros Hw s r s' E Hs. destruct o as [data|[partial|] msg]; simpl in E.
  - injection E as <- <-. left. by apply Hw.
  - injection E as <- <-. left. by apply Hw.
  - injection E as <- <-. by left.
Qed.

Lemma keeps_subprocess_run (env : Env) (argv : list string) :
  (forall s, P s -> P (called argv s)) ->
  (forall data s, P s ->
     P (set_fs (insert (default "" (last argv)) (File data)) s)) ->
  keeps P broken (subprocess_run env argv).
Proof.
  intros Hc Hw. unfold subprocess_run.
  apply keeps_bind; [by apply keeps_modify|]. intros _.
  apply keeps_bind; [apply keeps_gets|]. intros files.
  by apply keeps_writes.
Qed.

End Keeps.

(** *** The books of a job *)

Section Tracked.

Context (work_dir : string) (files0 : gmap string node).

Lemma tracked_logged line s :
  tracked work_dir files0 s -> tracked work_dir files0 (logged line s).
Proof. done. Qed.

Lemma tracked_called argv s :
  tracked work_dir files0 s -> tracked work_dir files0 (called argv s).
Proof. done. Qed.

Lemma tracked_registered ps s :
  tracked work_dir files0 s -> tracked work_dir files0 (registered ps s).
Proof.
  intros ([rest Ht] & Hd & Hk). split; [|split; [done|]].
  - exists (rest ++ ps). simpl. by rewrite Ht.
  - intros k Hne Hin Hnot. apply Hk; [done..|].
    intros Hmem. apply Hnot. simpl. apply elem_of_app. by left.
Qed.

Lemma tracked_write_inside path data s :
  inside work_dir path = true ->
  tracked work_dir files0 s ->
  tracked work_dir files0 (set_fs (insert path (File data)) s).
Proof.
  intros Hin (Ht & Hd & Hk).
  assert (Hne : path <> work_dir).
  { intros ->. by rewrite inside_irrefl in Hin. }
  split; [done|]. split.
  - simpl. by rewrite lookup_insert_ne.
  - intros k Hk1 Hk2 Hk3. simpl. rewrite lookup_insert_ne.
    + by apply Hk.
    + intros ->. by rewrite Hin in Hk2.
Qed.

Lemma tracked_download temp_dir path data s :
  path <> work_dir ->
  tracked work_dir files0 s ->
  tracked work_dir files0
    (registered [path; temp_dir] (after_download temp_dir path data s)).
Proof.
  intros Hne ([rest Ht] & Hd & Hk). split; [|split].
  - exists (rest ++ [path; temp_dir]). simpl. by rewrite Ht.
  - simpl. rewrite lookup_insert_ne; [|done].
    destruct (decide (temp_dir = work_dir)) as [->|Hn].
    + apply lookup_insert_eq.
    + by rewrite lookup_insert_ne.
  - intros k Hk1 Hk2 Hk3. simpl in Hk3.
    apply not_elem_of_app in Hk3 as [Hk3 Hk4].
    apply not_elem_of_cons in Hk4 as [Hp Hk4].
    apply not_elem_of_cons in Hk4 as [Hdir _].
    simpl. rewrite !lookup_insert_ne; [|done..]. by apply Hk.
Qed.

End Tracked.

(** *** One download *)

Lemma download_youtube_video_Raise_inv env url s e s1 :
  download_youtube_video env url s = (Raise e, s1) ->
  (s1 = s \/ some_download_breaks env)
  /\ calls s1 = calls s
  /\ exists cause, e = "YouTube download failed: " +:+ cause.
Proof.
  unfold download_youtube_video, try_except, bind, raise.
  destruct (youtube_streams env url) as [streams|cause].
  - destruct (select_stream streams) as [stream|].
    + unfold mkdtemp.
      destruct (stream_download env stream) as [data|[partial|] msg] eqn:D;
        simpl; [discriminate|..]; intros [= <- <-].
      * split; [right; by exists stream, (Some partial), msg|]. split; [done|].
        by eexists.
      * split; [right; by exists stream, None, msg|]. split; [done|].
        by eexists.
    + intros [= <- <-]. split; [by left|]. split; [done|]. by eexists.
  - intros [= <- <-]. split; [by left|]. split; [done|]. by eexists.
Qed.

(** X10: a download that returns has made the [n]-th directory of
    [mkdtemp], [n] being the count of the calls so far, and written in it
    the file of the chosen stream under its default name; it returns that
    file and that directory, both on disk, and appends nothing to
    [temp_paths]. *)
Theorem download_youtube_video_returns env url s path temp_dir s' :
  download_youtube_video env url s = (Ok (path, temp_dir), s') ->
  exists streams stream data,
    youtube_streams env url = Ok streams
    /\ select_stream streams = Some stream
    /\ stream_download env stream = Done data
    /\ temp_dir = mkdtemp_name env (tmp_count s)
    /\ path = path_join temp_dir (default_filename stream)
    /\ inside temp_dir path = true
    /\ fs s' !! temp_dir = Some Dir
    /\ fs s' !! path = Some (File data)
    /\ tmp_count s' = S (tmp_count s)
    /\ temp_paths s' = temp_paths s /\ calls s' = calls s.
Proof.
  unfold download_youtube_video, try_except, bind, raise.
  destruct (youtube_streams env url) as [streams|cause] eqn:Y; [|discriminate].
  destruct (select_stream streams) as [stream|] eqn:S; [|discriminate].
  unfold mkdtemp.
  destruct (stream_download env stream) as [data|[partial|] msg] eqn:D;
    simpl; [|discriminate..].
  intros [= <- <- <-]. exists streams, stream, data. simpl.
  repeat (split; [done|]).
  split; [apply inside_path_join|].
  split; [|split; [apply lookup_insert_eq | done]].
  rewrite lookup_insert_ne; [apply lookup_insert_eq|].
  intros E.
  pose proof (inside_path_join (mkdtemp_name env (tmp_count s))
                (default_filename stream)) as Hin.
  by rewrite E, inside_irrefl in Hin.
Qed.

(** X11: when pytube raises for the URL, or lists no progressive mp4
    stream with a resolution, the download raises the wrapped error and
    leaves the state as it was: no directory is made. *)
Theorem download_without_stream_leaves_no_trace env url s :
  (forall e, youtube_streams env url = Raise e ->
     download_youtube_video env url s
     = (Raise ("YouTube download failed: " +:+ e), s))
  /\ (forall streams, youtube_streams env url = Ok streams ->
        Forall (fun t => suitable t = false) streams ->
        download_youtube_video env url s
        = (Raise "YouTube download failed: No suitable video stream found", s)).
Proof.
  unfold download_youtube_video, try_except, bind, raise. split.
  - by intros e ->.
  - intros streams -> Hs. by rewrite (select_stream_unsuitable streams Hs).
Qed.

(** *** The loop over the URLs *)

Lemma download_videos_calls env urls :
  forall c, keeps (fun s => calls s = c) False (download_videos env urls).
Proof.
  intros c. induction urls as [|url urls IH]; simpl; [apply keeps_ret|].
  apply keeps_bind.
  - intros s r s' E Hs. left. destruct r as [[path temp_dir]|e].
    + apply download_youtube_video_Ok_inv in E as (data & _ & _ & ->).
      exact Hs.
    + apply download_youtube_video_Raise_inv in E as (_ & Hc & _). congruence.
  - intros [path temp_dir]. apply keeps_bind; [by apply keeps_modify|].
    intros _. apply keeps_bind; [exact IH|]. intros videos. apply keeps_ret.
Qed.

Lemma download_videos_tracked env work_dir files0 urls :
  (forall n name, path_join (mkdtemp_name env n) name <> work_dir) ->
  keeps (tracked work_dir files0) (some_download_breaks env)
        (download_videos env urls).
Proof.
  intros Hclash. induction urls as [|url urls IH]; simpl; [apply keeps_ret|].
  intros s r s' E Hs. unfold bind at 1 in E.
  destruct (download_youtube_video env url s) as [[[path temp_dir]|e] s1] eqn:D.
  - apply download_youtube_video_Ok_inv in D as (data & -> & Hp & ->).
    unfold bind at 1, extend_temp_paths, modify in E.
    eapply (keeps_bind _ _ _ _ IH (fun videos => keeps_ret _ _ _));
      [exact E|].
    apply tracked_download; [|done].
    unfold downloaded_path in Hp.
    destruct (youtube_streams env url) as [streams|]; [|done].
    destruct (select_stream streams) as [stream|]; [|done].
    injection Hp as <-. apply Hclash.
  - injection E as <- <-.
    apply download_youtube_video_Raise_inv in D as ([->|Hb] & _ & _).
    + by left.
    + right. split; [done|]. by eexists.
Qed.

Lemma download_videos_registers env urls : forall s videos s',
  download_videos env urls s = (Ok videos, s') ->
  temp_paths s' = temp_paths s ++ download_entries env (tmp_count s) videos
  /\ tmp_count s' = tmp_count s + length urls.
Proof.
  induction urls as [|url urls IH]; intros s videos s' H.
  - injection H as <- <-. unfold download_entries. simpl.
    by rewrite app_nil_r, Nat.add_0_r.
  - simpl in H.
    apply bind_Ok_inv in H as ([path temp_dir] & s1 & D & H).
    apply download_youtube_video_Ok_inv in D as (data & -> & _ & ->).
    apply bind_Ok_inv in H as ([] & s2 & [= <-] & H).
    apply bind_Ok_inv in H as (rest & s3 & R & [= <- <-]).
    apply IH in R as [Ht Hn]. simpl in *. split; [|lia].
    rewrite Ht, <- app_assoc. f_equal. unfold download_entries. simpl.
    rewrite Nat.add_0_r. do 3 f_equal.
    apply imap_ext. intros i x _. simpl. do 3 f_equal. lia.
Qed.

(** *** The [try] block, whatever its outcome *)

Lemma body_gtts_failed env story urls s partial msg :
  gtts_save env story = Failed partial msg ->
  process_video_body env story urls s
  = (Raise msg,
     match partial with
     | Some data =>
         set_fs (insert (voice_path_of env s) (File data)) (before_narration env s)
     | None => before_narration env s
     end).
Proof.
  intros G. unfold process_video_body, bind at 1 2 3 4.
  unfold mkdtemp, extend_temp_paths, print, modify. rewrite G.
  by destruct partial.
Qed.

Lemma body_whisper_failed env story urls s audio e :
  gtts_save env story = Done audio ->
  whisper_segments env (Some (File audio)) = Raise e ->
  process_video_body env story urls s = (Raise e, before_transcript env s audio).
Proof.
  intros G W. unfold process_video_body, bind at 1 2 3 4 5 6 7 8 9.
  unfold mkdtemp, extend_temp_paths, print, modify. rewrite G. simpl.
  by rewrite lookup_insert_eq, W.
Qed.

Lemma tracked_before_narration env s :
  temp_paths s = [] ->
  tracked (work_dir_of env s) (fs s) (before_narration env s).
Proof.
  intros Ht. split; [|split].
  - exists []. simpl. by rewrite Ht.
  - simpl. apply lookup_insert_eq.
  - intros k Hne _ _. simpl. by rewrite lookup_insert_ne.
Qed.

Lemma tracked_before_transcript env s audio :
  temp_paths s = [] ->
  tracked (work_dir_of env s) (fs s) (before_transcript env s audio).
Proof.
  intros Ht. apply tracked_logged, tracked_registered, tracked_write_inside.
  - apply inside_path_join.
  - by apply tracked_before_narration.
Qed.

Lemma compose_keeps env s files0 broken result videos :
  keeps (tracked (work_dir_of env s) files0) broken
        (compose env s result videos).
Proof.
  assert (Hrun : forall argv name,
            last argv = Some (path_join (work_dir_of env s) name) ->
            keeps (tracked (work_dir_of env s) files0) broken
                  (subprocess_run env argv)).
  { intros argv name Hl. apply keeps_subprocess_run.
    - intros t. apply tracked_called.
    - intros data t. rewrite Hl. apply tracked_write_inside, inside_path_join. }
  unfold compose. apply keeps_bind.
  - destruct (1 <? length videos).
    + apply keeps_bind; [apply keeps_modify, tracked_logged|]. intros _.
      apply keeps_bind.
      { apply keeps_modify. intros t.
        apply tracked_write_inside, inside_path_join. }
      intros _. apply keeps_bind; [by apply (Hrun _ "combined.mp4")|].
      intros _. apply keeps_bind; [apply keeps_modify, tracked_registered|].
      intros _. apply keeps_ret.
    + destruct videos; [apply keeps_raise | apply keeps_ret].
  - intros input_video.
    apply keeps_bind; [apply keeps_modify, tracked_logged|]. intros _.
    apply keeps_bind; [by apply (Hrun _ "final_output.mp4")|]. intros _.
    apply keeps_bind; [apply keeps_gets|]. intros tps. apply keeps_ret.
Qed.

(** When the [try] block is over, returned or raised, the books are kept,
    unless a download broke. *)
Lemma process_video_body_tracked env story urls s r s1 :
  process_video_body env story urls s = (r, s1) ->
  temp_paths s = [] ->
  no_clash env s ->
  tracked (work_dir_of env s) (fs s) s1
  \/ (some_download_breaks env /\ exists e, r = Raise e).
Proof.
  intros H Ht Hclash.
  destruct (gtts_save env story) as [audio|partial msg] eqn:G.
  - destruct (whisper_segments env (Some (File audio))) as [result|e] eqn:W.
    + rewrite (process_video_body_eq _ _ _ _ _ _ G W) in H.
      eapply (keeps_bind _ _ _ _
                (download_videos_tracked env _ (fs s) urls Hclash)
                (fun videos => compose_keeps env s (fs s) _ result videos));
        [exact H|].
      apply tracked_logged. by apply tracked_before_transcript.
    + rewrite (body_whisper_failed _ _ _ _ _ _ G W) in H.
      injection H as <- <-. left. by apply tracked_before_transcript.
  - rewrite (body_gtts_failed _ _ _ _ _ _ G) in H. injection H as <- <-.
    left. destruct partial as [data|].
    + apply tracked_write_inside; [apply inside_path_join|].
      by apply tracked_before_narration.
    + by apply tracked_before_narration.
Qed.

(** The removals undo a job whose books are kept. *)
Lemma cleanup_restores os work_dir files0 s1 s2 :
  tracked work_dir files0 s1 ->
  never_refuses os ->
  clean_temp_files os (temp_paths s1) s1 = (Ok tt, s2) ->
  fs s2 ⊆ files0.
Proof.
  intros ([rest Ht] & Hd & Hk) Hos Hc. apply map_subseteq_spec. intros k v Hv.
  destruct (clean_temp_files_lookup os _ s1 s2 k Hos Hc) as [Hl _].
  rewrite Hv in Hl.
  destruct (doomed (fs s1) (temp_paths s1) k) eqn:D; [done|].
  assert (Hsw : forall p, p ∈ temp_paths s1 -> swept (fs s1) p k = false).
  { intros p Hp. destruct (swept (fs s1) p k) eqn:Sw; [|done].
    rewrite <- D. symmetry. apply existsb_exists. exists p.
    split; [by apply list_elem_of_In | done]. }
  assert (Hwd : swept (fs s1) work_dir k = false).
  { apply Hsw. rewrite Ht. by left. }
  unfold swept, is_dir in Hwd. rewrite Hd in Hwd. simpl in Hwd.
  apply orb_false_elim in Hwd as [Hne Hin].
  rewrite <- Hk; [done | by apply String.eqb_neq | done |].
  intros Hmem. specialize (Hsw k Hmem). unfold swept in Hsw.
  by rewrite String.eqb_refl in Hsw.
Qed.

(** *** What [process_video] returns and raises *)

Lemma process_video_any env os story urls s r s' :
  process_video env os story urls s = (r, s') ->
  exists rb s1,
    process_video_body env story urls (start_frame s) = (rb, s1)
    /\ ((exists a, rb = Ok a /\ r = Ok a /\ s' = s1)
        \/ (exists e, rb = Raise e
              /\ r = Raise ("Video processing failed: " +:+ e)
              /\ clean_temp_files os (temp_paths s1) s1 = (Ok tt, s'))).
Proof.
  intros H. pose proof (process_video_cases env os story urls s) as C.
  destruct (process_video_body env story urls _) as [[a|e] s1] eqn:B.
  - rewrite C in H. injection H as <- <-. exists (Ok a), s1.
    split; [done|]. left. by exists a.
  - destruct C as (s2 & Hc & C). rewrite C in H. injection H as <- <-.
    exists (Raise e), s1. split; [done|]. right. by exists e.
Qed.

Lemma process_video_raises_wrapped_aux env os story urls s msg s' :
  process_video env os story urls s = (Raise msg, s') ->
  exists e, msg = "Video processing failed: " +:+ e.
Proof.
  intros H. apply process_video_any in H as (rb & s1 & B & [C|C]).
  - by destruct C as (a & _ & ? & _).
  - destruct C as (e & _ & [= ->] & _). by exists e.
Qed.

(** X12: what [process_video] raises is the error of its [try] block,
    wrapped, never an error of the removals; and the state it leaves is the
    one at the error after a pass of [clean_temp_files] over the paths
    listed until then. *)
Theorem process_video_raises_wrapped env os story urls s msg s' :
  process_video env os story urls s = (Raise msg, s') ->
  exists e s1,
    process_video_body env story urls (start_frame s) = (Raise e, s1)
    /\ msg = "Video processing failed: " +:+ e
    /\ clean_temp_files os (temp_paths s1) s1 = (Ok tt, s').
Proof.
  intros H. apply process_video_any in H as (rb & s1 & B & [C|C]).
  - by destruct C as (a & _ & ? & _).
  - destruct C as (e & -> & [= ->] & Hc). by exists e, s1.
Qed.

(** X13: with an empty list of URLs, and gTTS and whisper working,
    [process_video] raises the wrapped IndexError of [video_segments[0]],
    after making the work directory and without running ffmpeg. *)
Theorem process_video_without_urls env os story s audio result :
  gtts_save env story = Done audio ->
  whisper_segments env (Some (File audio)) = Ok result ->
  exists s',
    process_video env os story [] s
    = (Raise "Video processing failed: list index out of range", s')
    /\ calls s' = calls s /\ tmp_count s' = S (tmp_count s).
Proof.
  intros G W. pose proof (process_video_cases env os story [] s) as C.
  rewrite (process_video_body_eq _ _ _ _ _ _ G W) in C.
  change ((video_segments <- download_videos env [];;
           compose env (start_frame s) result video_segments)
            (before_downloads env (start_frame s) audio))
    with (@Raise (string * list string) "list index out of range",
          before_downloads env (start_frame s) audio) in C.
  destruct C as (s2 & Hc & C). exists s2. split; [done|].
  destruct (clean_temp_files_spec os
              (temp_paths (before_downloads env (start_frame s) audio))
              (before_downloads env (start_frame s) audio))
    as (t & _ & E & _ & (Hn & Hcalls & _) & _).
  rewrite Hc in E. injection E as <-. by rewrite Hn, Hcalls.
Qed.

Lemma process_video_Ok_parts env os story urls s out tps s' :
  process_video env os story urls s = (Ok (out, tps), s') ->
  exists audio result videos s4,
    gtts_save env story = Done audio
    /\ whisper_segments env (Some (File audio)) = Ok result
    /\ download_videos env urls (before_downloads env (start_frame s) audio)
       = (Ok videos, s4)
    /\ compose env (start_frame s) result videos s4 = (Ok (out, tps), s').
Proof.
  intros H. apply process_video_any in H as (rb & s1 & B & [C|C]).
  - destruct C as (a & -> & [= ->] & ->).
    by apply process_video_body_Ok_inv in B.
  - by destruct C as (e & _ & ? & _).
Qed.

Lemma process_video_returns_registry_aux env os story urls s out tps s' :
  process_video env os story urls s = (Ok (out, tps), s') ->
  temp_paths s' = tps.
Proof.
  intros H.
  apply process_video_Ok_parts in H
    as (audio & result & videos & s4 & _ & _ & _ & K).
  by apply compose_Ok_inv in K as (input & s5 & video & [= -> ->] & -> & _).
Qed.

(** X14: the list that a call of [process_video] returns is, in this
    order, the work directory, the narration, for each URL its file and then
    its directory, and, with more than one URL, the list file and the
    combined video; the output file is not in the list but lies in the work
    directory; [mkdtemp] was called once and once per URL. *)
Theorem process_video_returns_registry env os story urls s out tps s' :
  process_video env os story urls s = (Ok (out, tps), s') ->
  exists videos,
    map Some videos
    = imap (fun i url => downloaded_path env (S (tmp_count s) + i) url) urls
    /\ tps = registry env s videos
    /\ temp_paths s' = tps
    /\ out = output_path_of env s
    /\ inside (work_dir_of env s) out = true
    /\ tmp_count s' = S (tmp_count s) + length urls.
Proof.
  intros H.
  apply process_video_Ok_parts in H
    as (audio & result & videos & s4 & _ & _ & D & K).
  pose proof (download_videos_Ok_inv _ _ _ _ _ D) as (Hmap & _ & _).
  apply download_videos_registers in D as [Ht Hn].
  apply compose_Ok_inv in K as (input_video & s5 & data & [= -> ->] & -> & Hc).
  exists videos. split; [exact Hmap|].
  assert (E : temp_paths s5 = registry env s videos
              /\ tmp_count s5 = S (tmp_count s) + length urls).
  { unfold registry. simpl in Ht, Hn.
    destruct Hc as [[-> ->]|(Hlen & _ & data1 & ->)]; simpl.
    - rewrite Ht. split; [reflexivity | exact Hn].
    - apply Nat.ltb_lt in Hlen. rewrite Hlen, Ht.
      split; [reflexivity | exact Hn]. }
  destruct E as [E1 E2]. split; [done|]. split; [done|]. split; [done|].
  split; [apply inside_path_join | done].
Qed.

Lemma download_youtube_video_Ok_fetchable env url s r s1 :
  download_youtube_video env url s = (Ok r, s1) -> fetchable env url.
Proof.
  unfold download_youtube_video, fetchable, try_except, bind, raise.
  destruct (youtube_streams env url) as [streams|e] eqn:Y; [|discriminate].
  destruct (select_stream streams) as [stream|] eqn:S; [|discriminate].
  unfold mkdtemp.
  destruct (writes _ _ _) as [[[]|e] s2] eqn:W; [|discriminate].
  apply writes_Ok_inv in W as (data & D & _). intros _.
  by exists streams, stream, data.
Qed.

Lemma download_videos_Ok_fetchable env urls : forall s videos s',
  download_videos env urls s = (Ok videos, s') -> Forall (fetchable env) urls.
Proof.
  induction urls as [|url urls IH]; intros s videos s' H; [constructor|].
  simpl in H.
  apply bind_Ok_inv in H as ([path temp_dir] & s1 & D & H).
  apply bind_Ok_inv in H as ([] & s2 & _ & H).
  apply bind_Ok_inv in H as (rest & s3 & R & _).
  constructor.
  - by eapply download_youtube_video_Ok_fetchable.
  - by eapply IH.
Qed.

(** X15: ffmpeg is run only when the narration, the transcript and the
    file of every URL are there: a call of [process_video] either records
    no command, or gTTS wrote the narration, whisper gave the transcript,
    and for every URL pytube listed streams, one was chosen and its
    download went through. *)
Theorem ffmpeg_runs_after_inputs env os story urls s r s' :
  process_video env os story urls s = (r, s') ->
  calls s' = calls s
  \/ exists audio result,
       gtts_save env story = Done audio
       /\ whisper_segments env (Some (File audio)) = Ok result
       /\ Forall (fun url =>
                    exists streams stream data,
                      youtube_streams env url = Ok streams
                      /\ select_stream streams = Some stream
                      /\ stream_download env stream = Done data) urls.
Proof.
  intros H. apply process_video_any in H as (rb & s1 & B & C).
  assert (Hclean : forall t t', clean_temp_files os (temp_paths t) t = (Ok tt, t') ->
            calls t' = calls t).
  { intros t t' Hc.
    destruct (clean_temp_files_spec os (temp_paths t) t)
      as (u & _ & E & _ & (_ & Hcalls & _) & _).
    rewrite Hc in E. by injection E as <-. }
  destruct (gtts_save env story) as [audio|partial msg] eqn:G.
  - destruct (whisper_segments env (Some (File audio))) as [result|e] eqn:W.
    + rewrite (process_video_body_eq _ _ _ _ _ _ G W) in B.
      unfold bind at 1 in B.
      destruct (download_videos env urls _) as [[videos|e] s4] eqn:D.
      * right. exists audio, result. split; [done|]. split; [done|].
        exact (download_videos_Ok_fetchable _ _ _ _ _ D).
      * left. injection B as <- <-.
        destruct C as [(a & ? & _)|(e' & _ & _ & Hc)]; [done|].
        rewrite (Hclean _ _ Hc).
        by destruct (download_videos_calls env urls _ _ _ _ D eq_refl)
          as [Hs|[[] _]].
    + left. rewrite (body_whisper_failed _ _ _ _ _ _ G W) in B.
      injection B as <- <-.
      destruct C as [(a & ? & _)|(e' & _ & _ & Hc)]; [done|].
      by rewrite (Hclean _ _ Hc).
  - left. rewrite (body_gtts_failed _ _ _ _ _ _ G) in B. injection B as <- <-.
    destruct C as [(a & ? & _)|(e' & _ & _ & Hc)]; [done|].
    rewrite (Hclean _ _ Hc). by destruct partial.
Qed.

(** *** Nothing is left behind *)

(** X16: when [process_video] raises, no removal is refused, and no
    download breaks after its directory was made, the disk holds nothing
    that it did not hold before the call: every file and directory of the
    job is gone. *)
Theorem failed_job_leaves_nothing env os story urls s msg s' :
  process_video env os story urls s = (Raise msg, s') ->
  never_refuses os ->
  no_clash env s ->
  never_breaks env ->
  fs s' ⊆ fs s.
Proof.
  intros H Hos Hclash Hdl.
  apply process_video_any in H as (rb & s1 & B & [C|C]).
  { by destruct C as (a & _ & ? & _). }
  destruct C as (e & -> & _ & Hc).
  destruct (process_video_body_tracked _ _ _ _ _ _ B eq_refl Hclash)
    as [Ht|[(stream & partial & m & Hb) _]].
  - by apply (cleanup_restores os _ _ s1 s' Ht Hos Hc).
  - destruct (Hdl stream) as [data Hd]. congruence.
Qed.

Lemma early_answer_status req answer :
  early_answer req = Some answer ->
  exists msg status, answer = JsonError msg status
    /\ (status = 400 \/ status = 500).
Proof.
  destruct req as [msg|data]; simpl.
  { intros [= <-]. eexists _, _. split; [reflexivity | by right]. }
  destruct data;
    try (intros [= <-]; eexists _, _; split; [reflexivity | by right]).
  destruct (negb _ || negb _).
  { intros [= <-]. eexists _, _. split; [reflexivity | by left]. }
  destruct (py_len _) as [count|msg].
  - destruct (10 <? count); [|discriminate].
    intros [= <-]. eexists _, _. split; [reflexivity | by left].
  - intros [= <-]. eexists _, _. split; [reflexivity | by right].
Qed.

(** The answers of the part that follows the checks. *)
Lemma deliver_cases env os story urls s :
  match process_video env os story urls s with
  | (Ok (out, tps), s1) =>
      exists s', clean_temp_files os tps s1 = (Ok tt, s')
        /\ deliver env os story urls s
           = (Ok match send_file env (fs s1) out with
                 | Ok file => Attachment file "video/mp4" "generated_video.mp4"
                 | Raise e => JsonError e 500
                 end, s')
  | (Raise e, s1) => deliver env os story urls s = (Ok (JsonError e 500), s1)
  end.
Proof.
  unfold deliver, try_except, bind.
  destruct (process_video env os story urls s) as [[[out tps]|e] s1];
    [|reflexivity].
  unfold try_finally, ret.
  destruct (clean_temp_files_returns os tps s1) as [s2 Hc].
  exists s2. split; [exact Hc|].
  destruct (send_file env (fs s1) out); by rewrite Hc.
Qed.

Lemma generate_video_Attachment_inv env os data s body mimetype name s' :
  generate_video env os data s = (Ok (Attachment body mimetype name), s') ->
  exists out tps s1,
    process_video env os (story_of data) (urls_of data) s
    = (Ok (out, tps), s1)
    /\ send_file env (fs s1) out = Ok body
    /\ clean_temp_files os tps s1 = (Ok tt, s')
    /\ mimetype = "video/mp4" /\ name = "generated_video.mp4".
Proof.
  rewrite generate_video_unfold.
  destruct (early_answer data) as [answer|] eqn:E.
  { apply early_answer_status in E as (m & st & -> & _). discriminate. }
  pose proof (deliver_cases env os (story_of data) (urls_of data) s) as C.
  destruct (process_video env os _ _ s) as [[[out tps]|e] s1] eqn:P.
  - destruct C as (s2 & Hc & ->).
    destruct (send_file env (fs s1) out) as [file|e] eqn:F; [|discriminate].
    intros [= <- <- <- <-]. by exists out, tps, s1.
  - rewrite C. discriminate.
Qed.

(** X17: when the endpoint answers with the video and no removal is
    refused, the disk holds nothing that it did not hold before the request:
    the work directory with the narration, the list file and the videos in
    it, and the file and directory of every download are gone. *)
Theorem delivered_job_leaves_nothing env os data s body mimetype name s' :
  generate_video env os data s = (Ok (Attachment body mimetype name), s') ->
  never_refuses os ->
  no_clash env s ->
  fs s' ⊆ fs s.
Proof.
  intros H Hos Hclash.
  apply generate_video_Attachment_inv in H
    as (out & tps & s1 & P & _ & Hc & _).
  pose proof (process_video_returns_registry_aux env os _ _ s out tps s1 P) as Ht.
  apply process_video_any in P as (rb & s0 & B & [C|C]).
  - destruct C as (a & -> & [= <-] & <-).
    destruct (process_video_body_tracked _ _ _ _ _ _ B eq_refl Hclash)
      as [Htr|[_ [e He]]]; [|done].
    rewrite <- Ht in Hc. by apply (cleanup_restores os _ _ s1 s' Htr Hos Hc).
  - by destruct C as (e & _ & ? & _).
Qed.

(** X18: when the endpoint answers with the video, [send_file] was called
    on the output path in the state that [process_video] left, where the
    file that the mux wrote is on disk; the removals come after that call,
    and the answer holds what [send_file] returned for the file it opened. *)
Theorem attachment_opened_before_cleanup env os data s file mimetype name s' :
  generate_video env os data s = (Ok (Attachment file mimetype name), s') ->
  exists out tps s1 video,
    process_video env os (story_of data) (urls_of data) s
    = (Ok (out, tps), s1)
    /\ fs s1 !! out = Some (File video)
    /\ send_file env (fs s1) out = Ok file
    /\ clean_temp_files os tps s1 = (Ok tt, s').
Proof.
  intros H.
  apply generate_video_Attachment_inv in H
    as (out & tps & s1 & P & F & Hc & _).
  pose proof P as Q.
  apply process_video_Ok_shape in Q
    as (audio & result & videos & s4 & input_video & s5 & video
        & _ & _ & _ & _ & _ & _ & -> & _).
  eexists out, tps, _, video. split; [exact P|]. split; [|done].
  simpl. apply lookup_insert_eq.
Qed.

(** X19: the endpoint never raises.  It answers with status 400 and one
    of its two messages, the machine left as it was; or with status 500 and
    the error of reading the request (a body that cannot be read, a body
    that is not an object, links without a length), the machine left as it
    was; or with status 500 and the wrapped error of the pipeline or the
    error of [send_file]; or with the video as [video/mp4] under the name
    [generated_video.mp4]. *)
Theorem generate_video_always_answers env os req s :
  exists resp s',
    generate_video env os req s = (Ok resp, s')
    /\ match resp with
       | JsonError msg status =>
           (status = 400 /\ s' = s
            /\ (msg = "Missing prompt or video links"
                \/ msg = "Maximum 10 videos allowed"))
           \/ (status = 500
               /\ ((req = Malformed msg /\ s' = s)
                   \/ (exists data,
                         req = Json data
                         /\ (forall members, data <> JObject members)
                         /\ msg = "'" +:+ type_name data
                                  +:+ "' object has no attribute 'get'"
                         /\ s' = s)
                   \/ (exists members,
                         req = Json (JObject members)
                         /\ py_len (default (JArray []) (assoc "links" members))
                            = Raise msg
                         /\ s' = s)
                   \/ (exists e, msg = "Video processing failed: " +:+ e)
                   \/ (exists files path, send_file env files path = Raise msg)))
       | Attachment _ mimetype name =>
           mimetype = "video/mp4" /\ name = "generated_video.mp4"
       end.
Proof.
  destruct req as [msg0|data].
  { eexists _, _. split; [reflexivity|]. right. split; [done|]. by left. }
  destruct data as [| | | | | |members];
    try (eexists _, _; split; [reflexivity|]; right; split; [done|];
         right; left; eexists; repeat split; discriminate).
  rewrite generate_video_unfold. unfold early_answer, story_of, links_of.
  destruct (negb _ || negb _).
  { eexists _, _. split; [reflexivity|]. left. repeat split. by left. }
  destruct (py_len _) as [count|msg0] eqn:L.
  2: { eexists _, _. split; [reflexivity|]. right. split; [done|].
       right. right. left. by exists members. }
  destruct (10 <? count).
  { eexists _, _. split; [reflexivity|]. left. repeat split. by right. }
  pose proof (deliver_cases env os
                (default JNull (assoc "prompt" members))
                (urls_of (Json (JObject members))) s) as C.
  destruct (process_video env os _ _ s) as [[[out tps]|e] s1] eqn:P.
  - destruct C as (s2 & Hc & ->). eexists _, _. split; [reflexivity|].
    destruct (send_file env (fs s1) out) as [file|e] eqn:F; [done|].
    right. split; [done|]. do 4 right. by exists (fs s1), out.
  - rewrite C. eexists _, _. split; [reflexivity|].
    apply process_video_raises_wrapped_aux in P as [cause ->].
    right. split; [done|]. do 3 right. left. by exists cause.
Qed.

(** X20: when the transfer of the chosen stream breaks, the download
    raises the wrapped error, and the directory it made for the file stays
    on disk without being appended to [temp_paths]. *)
Theorem broken_download_orphans_directory env url s streams stream partial msg :
  youtube_streams env url = Ok streams ->
  select_stream streams = Some stream ->
  stream_download env stream = Failed partial msg ->
  exists s1,
    download_youtube_video env url s
    = (Raise ("YouTube download failed: " +:+ msg), s1)
    /\ fs s1 !! mkdtemp_name env (tmp_count s) = Some Dir
    /\ temp_paths s1 = temp_paths s
    /\ tmp_count s1 = S (tmp_count s).
Proof.
  intros Y S D. unfold download_youtube_video, try_except, bind, raise.
  rewrite Y, S. unfold mkdtemp. rewrite D.
  destruct partial as [data|]; simpl.
  - eexists. split; [reflexivity|]. simpl. split; [|done].
    rewrite lookup_insert_ne; [apply lookup_insert_eq|].
    intros E.
    pose proof (inside_path_join (mkdtemp_name env (tmp_count s))
                  (default_filename stream)) as Hin.
    by rewrite E, inside_irrefl in Hin.
  - eexists. split; [reflexivity|]. simpl. split; [|done].
    apply lookup_insert_eq.
Qed.

(** X21: the endpoint answers with status 400 exactly when the body is
    an object and its prompt is missing or false (null, false, zero, empty),
    or its links are missing or false, or its links count more than ten
    items.  A body that is not an object, and links that have no length,
    are not answered with status 400. *)
Theorem status_400_iff_invalid env os (req : request) s :
  (exists msg s', generate_video env os req s = (Ok (JsonError msg 400), s'))
  <-> exists members,
        req = Json (JObject members)
        /\ (truthy (default JNull (assoc "prompt" members)) = false
            \/ truthy (default (JArray []) (assoc "links" members)) = false
            \/ exists count,
                 py_len (default (JArray []) (assoc "links" members)) = Ok count
                 /\ 10 < count).
Proof.
  destruct req as [msg0|data].
  { split; [intros (msg & s' & H); discriminate|].
    intros (members & H & _). discriminate. }
  destruct data as [| | | | | |members];
    try (split; [intros (msg & s' & H); discriminate|];
         intros (members & H & _); discriminate).
  rewrite generate_video_unfold. unfold early_answer, story_of, links_of.
  destruct (truthy (default JNull (assoc "prompt" members))) eqn:T1; simpl.
  2: { split; [|by eexists _, _]. intros _. exists members. split; [done|].
       by left. }
  destruct (truthy (default (JArray []) (assoc "links" members))) eqn:T2; simpl.
  2: { split; [|by eexists _, _]. intros _. exists members. split; [done|].
       right. by left. }
  destruct (py_len _) as [count|msg0] eqn:L.
  2: { split; [intros (msg & s' & H); discriminate|].
       intros (members' & [= <-] & [H|[H|(count & H & _)]]); congruence. }
  destruct (10 <? count) eqn:E10.
  { apply Nat.ltb_lt in E10. split; [|by eexists _, _].
    intros _. exists members. split; [done|]. right. right.
    by exists count. }
  apply Nat.ltb_ge in E10. split.
  - intros (msg & s' & H). exfalso. revert H.
    pose proof (deliver_cases env os
                  (default JNull (assoc "prompt" members))
                  (urls_of (Json (JObject members))) s) as C.
    destruct (process_video env os _ _ s) as [[[out tps]|e] s1] eqn:P.
    + destruct C as (s2 & Hc & ->).
      destruct (send_file env (fs s1) out); discriminate.
    + rewrite C. discriminate.
  - intros (members' & [= <-] & [H|[H|(count' & H & Hc)]]); [congruence..|].
    rewrite L in H. injection H as <-. lia.
Qed.

(** X22: when the endpoint answers with status 500, no removal is refused
    and no download breaks after its directory was made, the disk holds
    nothing that it did not hold before the request, whether the pipeline
    raised or [send_file] did. *)
Theorem failure_answer_leaves_nothing env os data s msg s' :
  generate_video env os data s = (Ok (JsonError msg 500), s') ->
  never_refuses os ->
  no_clash env s ->
  never_breaks env ->
  fs s' ⊆ fs s.
Proof.
  intros H Hos Hclash Hdl. revert H. rewrite generate_video_unfold.
  destruct (early_answer data) as [answer|]; [by intros [= _ <-]|].
  unfold deliver, try_except. unfold bind at 1.
  destruct (process_video env os _ _ s) as [r s1] eqn:P.
  apply process_video_any in P as (rb & s0 & B & C).
  destruct (process_video_body_tracked _ _ _ _ _ _ B eq_refl Hclash)
    as [Htr|[(stream & partial & m & Hb) _]].
  2: { destruct (Hdl stream) as [d Hd]. congruence. }
  destruct C as [(a & -> & -> & ->)|(e & -> & -> & Hc)].
  - destruct a as [out tps].
    assert (Ht : temp_paths s0 = tps).
    { apply process_video_body_Ok_inv in B
        as (audio & result & videos & s4 & _ & _ & _ & K).
      by apply compose_Ok_inv in K as (input & s5 & video & [= -> ->] & -> & _). }
    unfold try_finally, bind, ret.
    destruct (clean_temp_files_returns os tps s0) as [s2 Hc].
    destruct (send_file env (fs s0) out); rewrite Hc; [discriminate|].
    intros [= _ <-]. rewrite <- Ht in Hc.
    by apply (cleanup_restores os _ _ s0 s2 Htr Hos Hc).
  - intros [= _ <-]. by apply (cleanup_restores os _ _ s0 s1 Htr Hos Hc).
Qed.

(** *** The disk after the answer *)

Lemma downloaded_path_inside env n url video :
  downloaded_path env n url = Some video ->
  inside (mkdtemp_name env n) video = true.
Proof.
  unfold downloaded_path.
  destruct (youtube_streams env url) as [streams|]; [|done].
  destruct (select_stream streams) as [stream|]; [|done].
  intros [= <-]. apply inside_path_join.
Qed.

(** Every path of the list of a job is one of the directories of
    [mkdtemp] or lies in one. *)
Lemma registry_members env s urls videos p :
  map Some videos
  = imap (fun i url => downloaded_path env (S (tmp_count s) + i) url) urls ->
  p ∈ registry env s videos ->
  exists j, j <= length urls
    /\ (p = mkdtemp_name env (tmp_count s + j)
        \/ inside (mkdtemp_name env (tmp_count s + j)) p = true).
Proof.
  intros Hmap Hp. apply imap_Some_lookup in Hmap as [Hlen Hmap].
  assert (Hwd : forall name, exists j, j <= length urls
            /\ (path_join (work_dir_of env s) name
                = mkdtemp_name env (tmp_count s + j)
                \/ inside (mkdtemp_name env (tmp_count s + j))
                          (path_join (work_dir_of env s) name) = true)).
  { intros name. exists 0. split; [lia|]. right. rewrite Nat.add_0_r.
    apply inside_path_join. }
  unfold registry in Hp. apply elem_of_app in Hp as [Hp|Hp].
  { apply elem_of_cons in Hp as [->|Hp].
    - exists 0. split; [lia|]. left. by rewrite Nat.add_0_r.
    - apply list_elem_of_singleton in Hp as ->.
      apply (Hwd "narration.mp3"). }
  apply elem_of_app in Hp as [Hp|Hp].
  - unfold download_entries in Hp. apply list_elem_of_In in Hp.
    apply in_concat in Hp as (l & Hl & Hpl).
    apply list_elem_of_In, elem_of_lookup_imap_1 in Hl as (i & v & -> & Hv).
    assert (Hi : i < length urls) by (rewrite <- Hlen; by eapply lookup_lt_Some).
    exists (S i). split; [lia|].
    replace (tmp_count s + S i) with (S (tmp_count s) + i) by lia.
    destruct Hpl as [<-|[<-|[]]]; [|by left].
    right. destruct (lookup_lt_is_Some_2 urls i Hi) as [url Hu].
    destruct (Hmap i url Hu) as (video & Hv' & Hd).
    rewrite Hv in Hv'. injection Hv' as <-.
    by eapply downloaded_path_inside.
  - destruct (1 <? length videos); [|by apply elem_of_nil in Hp].
    apply elem_of_cons in Hp as [->|Hp]; [apply (Hwd "concat.txt")|].
    apply list_elem_of_singleton in Hp as ->. apply (Hwd "combined.mp4").
Qed.

Lemma process_video_registry env os story urls s out tps s' :
  process_video env os story urls s = (Ok (out, tps), s') ->
  exists videos,
    map Some videos
    = imap (fun i url => downloaded_path env (S (tmp_count s) + i) url) urls
    /\ temp_paths s' = registry env s videos /\ tps = temp_paths s'.
Proof.
  intros H.
  apply process_video_Ok_parts in H
    as (audio & result & videos & s4 & _ & _ & D & K).
  pose proof (download_videos_Ok_inv _ _ _ _ _ D) as (Hmap & _ & _).
  apply download_videos_registers in D as [Ht _]. simpl in Ht.
  apply compose_Ok_inv in K as (input & s5 & video & [= -> ->] & -> & Hc).
  exists videos. split; [exact Hmap|]. split; [|done].
  unfold registry. destruct Hc as [[-> ->]|(Hlen & _ & data1 & ->)]; simpl.
  - by rewrite Ht.
  - apply Nat.ltb_lt in Hlen. by rewrite Hlen, Ht.
Qed.

(** The removals undo a job exactly when what they remove was not there
    at the start. *)
Lemma cleanup_restores_exactly os work_dir files0 s1 s2 :
  tracked work_dir files0 s1 ->
  never_refuses os ->
  clean_temp_files os (temp_paths s1) s1 = (Ok tt, s2) ->
  (forall p k, p ∈ temp_paths s1 -> k = p \/ inside p k = true ->
     files0 !! k = None) ->
  fs s2 = files0.
Proof.
  intros ([rest Ht] & Hd & Hk) Hos Hc Hnew. apply map_eq. intros k.
  destruct (clean_temp_files_lookup os _ s1 s2 k Hos Hc) as [-> _].
  destruct (doomed (fs s1) (temp_paths s1) k) eqn:D.
  - symmetry. apply existsb_exists in D as (p & Hp & Hsw).
    apply (Hnew p k); [by apply list_elem_of_In|]. unfold swept in Hsw.
    apply orb_true_iff in Hsw as [->%String.eqb_eq|Hsw]; [by left|].
    apply andb_true_iff in Hsw as [_ Hin]. by right.
  - assert (Hsw : forall p, p ∈ temp_paths s1 -> swept (fs s1) p k = false).
    { intros p Hp. destruct (swept (fs s1) p k) eqn:Sw; [|done].
      rewrite <- D. symmetry. apply existsb_exists. exists p.
      split; [by apply list_elem_of_In | done]. }
    assert (Hwd : swept (fs s1) work_dir k = false).
    { apply Hsw. rewrite Ht. by left. }
    unfold swept, is_dir in Hwd. rewrite Hd in Hwd. simpl in Hwd.
    apply orb_false_elim in Hwd as [Hne Hin].
    apply Hk; [by apply String.eqb_neq | done |].
    intros Hmem. specialize (Hsw k Hmem). unfold swept in Hsw.
    by rewrite String.eqb_refl in Hsw.
Qed.

(** X23: when the endpoint answers with the video, no removal is refused,
    and the directories that [mkdtemp] hands out were not on disk, the disk
    after the answer is exactly the disk before the request. *)
Theorem delivered_job_restores_disk env os data s body mimetype name s' :
  generate_video env os data s = (Ok (Attachment body mimetype name), s') ->
  never_refuses os ->
  no_clash env s ->
  unused env s (length (urls_of data)) ->
  fs s' = fs s.
Proof.
  intros H Hos Hclash Hun.
  apply generate_video_Attachment_inv in H
    as (out & tps & s1 & P & _ & Hc & _).
  destruct (process_video_registry _ _ _ _ _ _ _ _ P)
    as (videos & Hmap & Hreg & ->).
  apply process_video_any in P as (rb & s0 & B & [C|C]).
  2: { by destruct C as (e & _ & ? & _). }
  destruct C as (a & -> & _ & ->).
  destruct (process_video_body_tracked _ _ _ _ _ _ B eq_refl Hclash)
    as [Htr|[_ [e He]]]; [|done].
  apply (cleanup_restores_exactly os _ _ s0 s' Htr Hos Hc).
  intros p k Hp Hpk. rewrite Hreg in Hp.
  destruct (registry_members env s _ videos p Hmap Hp) as (j & Hj & Hpj).
  apply (Hun j k Hj).
  destruct Hpk as [->|Hpk]; [done|].
  right. destruct Hpj as [<-|Hpj]; [done | by eapply inside_trans].
Qed.

End PipelineMore.

(** ** The further theorems at concrete inputs *)

Module MoreWitnesses.
Import Caption Pytube Effects Python App Terms Ledger Scenarios MoreScenarios.
Import CaptionMore StreamChoice CleanupMore PipelineMore.

Lemma string_length_app (a b : string) :
  String.length (a +:+ b) = String.length a + String.length b.
Proof. induction a as [|c a IH]; simpl; [done | by rewrite IH]. Defined.

Lemma tmp_names_no_clash env s :
  mkdtemp_name env = tmp_names -> no_clash env s.
Proof.
  intros Hn n name E. apply (f_equal String.length) in E.
  unfold path_join, work_dir_of in E. rewrite Hn in E. unfold tmp_names in E.
  rewrite !string_length_app in E. simpl in E. lia.
Defined.

Lemma no_errors_never_refuses : never_refuses no_errors.
Proof. intros path msg [H|[gone H]]; discriminate. Defined.

Lemma clean_text_fixed_iff_witness :
  clean_text "Hello, world!" = "Hello, world!".
Proof. apply clean_text_fixed_iff. reflexivity. Defined.

Lemma clean_text_app_length_witness :
  clean_text "Is it 9?" = "Is it 9?"
  /\ clean_text ("caf" +:+ "é!") = clean_text "caf" +:+ clean_text "é!".
Proof.
  destruct (clean_text_app_length "Is it 9?" "") as (_ & _ & Hfix).
  destruct (clean_text_app_length "caf" "é!") as (Happ & _).
  split; [apply Hfix; reflexivity | exact Happ].
Defined.

Lemma select_stream_first_720_witness :
  select_stream (mixed_listing_head ++ stream_of 720 "first.mp4"
                   :: mixed_listing_tail)
  = Some (stream_of 720 "first.mp4").
Proof.
  apply select_stream_first_720; [reflexivity|].
  repeat constructor.
Defined.

Lemma select_stream_otherwise_highest_witness :
  stream_of 480 "medium.mp4" ∈ low_listing
  /\ progressive_mp4 (stream_of 480 "medium.mp4") = true
  /\ Forall (fun t => progressive_mp4 t = true ->
               forall r, resolution t = Some r ->
                 r <= res_key (stream_of 480 "medium.mp4")) low_listing.
Proof.
  apply select_stream_otherwise_highest; [|reflexivity].
  repeat constructor.
Defined.

Lemma select_stream_none_iff_witness : select_stream audio_only = None.
Proof. apply select_stream_none_iff. repeat constructor. Defined.

Lemma clean_temp_files_closed_form_witness :
  (forall k, fs (clean_temp_files no_errors job_paths job_files).2 !! k
             = if doomed (fs job_files) job_paths k then None
               else fs job_files !! k)
  /\ stdout (clean_temp_files no_errors job_paths job_files).2
     = stdout job_files.
Proof.
  apply (clean_temp_files_closed_form no_errors job_paths job_files).
  - reflexivity.
  - apply no_errors_never_refuses.
  - vm_compute. reflexivity.
Defined.

Lemma clean_temp_files_order_free_witness :
  (clean_temp_files no_errors job_paths job_files).2
  = (clean_temp_files no_errors job_paths_shuffled job_files).2.
Proof.
  apply (clean_temp_files_order_free no_errors job_paths job_paths_shuffled
           job_files).
  - reflexivity.
  - reflexivity.
  - apply no_errors_never_refuses.
  - intros p. unfold job_paths, job_paths_shuffled.
    rewrite !elem_of_cons, !elem_of_nil. intuition.
  - vm_compute. reflexivity.
  - vm_compute. reflexivity.
Defined.

Lemma download_youtube_video_returns_witness :
  exists streams stream data,
    youtube_streams (fair_env hello_world) (JString "urlA") = Ok streams
    /\ select_stream streams = Some stream
    /\ stream_download (fair_env hello_world) stream = Done data
    /\ "/tmp/tmp0" = mkdtemp_name (fair_env hello_world) (tmp_count boot)
    /\ "/tmp/tmp0/urlA.mp4" = path_join "/tmp/tmp0" (default_filename stream)
    /\ inside "/tmp/tmp0" "/tmp/tmp0/urlA.mp4" = true
    /\ fs one_download.2 !! "/tmp/tmp0" = Some Dir
    /\ fs one_download.2 !! "/tmp/tmp0/urlA.mp4" = Some (File data)
    /\ tmp_count one_download.2 = S (tmp_count boot)
    /\ temp_paths one_download.2 = temp_paths boot
    /\ calls one_download.2 = calls boot.
Proof.
  apply (download_youtube_video_returns (fair_env hello_world) (JString "urlA") boot).
  vm_compute. reflexivity.
Defined.

Lemma download_without_stream_leaves_no_trace_witness :
  download_youtube_video picky_env (JString "urlX") boot
  = (Raise "YouTube download failed: urlX is unavailable", boot)
  /\ download_youtube_video picky_env (JString "urlY") boot
     = (Raise "YouTube download failed: No suitable video stream found", boot).
Proof.
  destruct (download_without_stream_leaves_no_trace picky_env (JString "urlX") boot)
    as [Hx _].
  destruct (download_without_stream_leaves_no_trace picky_env (JString "urlY") boot)
    as [_ Hy].
  split.
  - apply (Hx "urlX is unavailable"). reflexivity.
  - apply (Hy audio_only); [reflexivity | repeat constructor].
Defined.

Lemma process_video_raises_wrapped_witness :
  exists e s1,
    process_video_body picky_env (JString "Hello world") [JString "urlA"; JString "urlX"]
                       (start_frame boot)
    = (Raise e, s1)
    /\ "Video processing failed: YouTube download failed: urlX is unavailable"
       = "Video processing failed: " +:+ e
    /\ clean_temp_files no_errors (temp_paths s1) s1 = (Ok tt, unavailable_run.2).
Proof.
  apply (process_video_raises_wrapped picky_env no_errors (JString "Hello world")
           [JString "urlA"; JString "urlX"] boot).
  vm_compute. reflexivity.
Defined.

Lemma process_video_without_urls_witness :
  exists s',
    process_video (fair_env hello_world) no_errors (JString "Hello world") [] boot
    = (Raise "Video processing failed: list index out of range", s')
    /\ calls s' = calls boot /\ tmp_count s' = S (tmp_count boot).
Proof.
  apply (process_video_without_urls (fair_env hello_world) no_errors
           (JString "Hello world") boot "narration" hello_world); reflexivity.
Defined.

Lemma process_video_returns_registry_witness :
  exists videos,
    map Some videos
    = imap (fun i url => downloaded_path (fair_env hello_world)
                           (S (tmp_count boot) + i) url) [JString "urlA"; JString "urlB"]
    /\ ["/tmp/tmp0"; "/tmp/tmp0/narration.mp3"; "/tmp/tmp1/urlA.mp4";
        "/tmp/tmp1"; "/tmp/tmp2/urlB.mp4"; "/tmp/tmp2";
        "/tmp/tmp0/concat.txt"; "/tmp/tmp0/combined.mp4"]
       = registry (fair_env hello_world) boot videos
    /\ temp_paths two_urls_run.2
       = ["/tmp/tmp0"; "/tmp/tmp0/narration.mp3"; "/tmp/tmp1/urlA.mp4";
          "/tmp/tmp1"; "/tmp/tmp2/urlB.mp4"; "/tmp/tmp2";
          "/tmp/tmp0/concat.txt"; "/tmp/tmp0/combined.mp4"]
    /\ "/tmp/tmp0/final_output.mp4" = output_path_of (fair_env hello_world) boot
    /\ inside (work_dir_of (fair_env hello_world) boot)
              "/tmp/tmp0/final_output.mp4" = true
    /\ tmp_count two_urls_run.2 = S (tmp_count boot) + 2.
Proof.
  apply (process_video_returns_registry (fair_env hello_world) no_errors
           (JString "Hello world") [JString "urlA"; JString "urlB"] boot).
  vm_compute. reflexivity.
Defined.

Lemma ffmpeg_runs_after_inputs_witness :
  calls unavailable_run.2 = calls boot
  \/ exists audio result,
       gtts_save picky_env (JString "Hello world") = Done audio
       /\ whisper_segments picky_env (Some (File audio)) = Ok result
       /\ Forall (fun url =>
                    exists streams stream data,
                      youtube_streams picky_env url = Ok streams
                      /\ select_stream streams = Some stream
                      /\ stream_download picky_env stream = Done data)
                 [JString "urlA"; JString "urlX"].
Proof.
  apply (ffmpeg_runs_after_inputs picky_env no_errors (JString "Hello world")
           [JString "urlA"; JString "urlX"] boot unavailable_run.1).
  vm_compute. reflexivity.
Defined.

Lemma failed_job_leaves_nothing_witness : fs ffmpeg_failed_run.2 ⊆ fs boot.
Proof.
  apply (failed_job_leaves_nothing ffmpeg_fails_env no_errors (JString "Hello world")
           [JString "urlA"; JString "urlB"] boot
           "Video processing failed: ffmpeg returned non-zero exit status 1.").
  - vm_compute. reflexivity.
  - apply no_errors_never_refuses.
  - by apply tmp_names_no_clash.
  - intros stream. by eexists.
Defined.

Lemma delivered_job_leaves_nothing_witness : fs delivered_run.2 ⊆ fs boot.
Proof.
  apply (delivered_job_leaves_nothing (fair_env hello_world) no_errors
           two_links boot "video" "video/mp4" "generated_video.mp4").
  - vm_compute. reflexivity.
  - apply no_errors_never_refuses.
  - by apply tmp_names_no_clash.
Defined.

Lemma attachment_opened_before_cleanup_witness :
  exists out tps s1 video,
    process_video (fair_env hello_world) no_errors (JString "Hello world")
                  [JString "urlA"; JString "urlB"] boot
    = (Ok (out, tps), s1)
    /\ fs s1 !! out = Some (File video)
    /\ send_file (fair_env hello_world) (fs s1) out = Ok "video"
    /\ clean_temp_files no_errors tps s1 = (Ok tt, delivered_run.2).
Proof.
  apply (attachment_opened_before_cleanup (fair_env hello_world) no_errors
           two_links boot "video" "video/mp4" "generated_video.mp4").
  vm_compute. reflexivity.
Defined.

Lemma broken_download_orphans_directory_witness :
  exists s1,
    download_youtube_video broken_download_env (JString "urlA") boot
    = (Raise ("YouTube download failed: " +:+ "connection reset"), s1)
    /\ fs s1 !! mkdtemp_name broken_download_env (tmp_count boot) = Some Dir
    /\ temp_paths s1 = temp_paths boot
    /\ tmp_count s1 = S (tmp_count boot).
Proof.
  apply (broken_download_orphans_directory broken_download_env (JString "urlA") boot
           [stream_of 720 "urlA.mp4"] (stream_of 720 "urlA.mp4") None);
    reflexivity.
Defined.

Lemma status_400_iff_invalid_witness :
  exists msg s',
    generate_video (fair_env hello_world) no_errors eleven_links boot
    = (Ok (JsonError msg 400), s').
Proof.
  apply status_400_iff_invalid.
  exists [("prompt", JString "Test");
          ("links", JArray (replicate 11 (JString "urlA")))].
  split; [reflexivity|]. right. right. exists 11. split; [reflexivity | lia].
Defined.

Lemma failure_answer_leaves_nothing_witness : fs failed_answer.2 ⊆ fs boot.
Proof.
  apply (failure_answer_leaves_nothing ffmpeg_fails_env no_errors two_links boot
           "Video processing failed: ffmpeg returned non-zero exit status 1.").
  - vm_compute. reflexivity.
  - apply no_errors_never_refuses.
  - by apply tmp_names_no_clash.
  - intros stream. by eexists.
Defined.

Lemma boot_unused : unused (fair_env hello_world) boot 2.
Proof.
  intros i k Hi Hk. apply lookup_singleton_ne. intros <-.
  destruct i as [|[|[|i]]]; [| | |lia]; destruct Hk as [Hk|Hk]; discriminate.
Defined.

Lemma delivered_job_restores_disk_witness : fs delivered_run.2 = fs boot.
Proof.
  apply (delivered_job_restores_disk (fair_env hello_world) no_errors
           two_links boot "video" "video/mp4" "generated_video.mp4").
  - vm_compute. reflexivity.
  - apply no_errors_never_refuses.
  - by apply tmp_names_no_clash.
  - apply boot_unused.
Defined.

End MoreWitnesses.
